(** * The NovaCred cleaning pipeline (src/data_cleaning.py) and its loader
      (src/data_loader.py), embedded in Rocq

    The pipeline works on a pandas DataFrame built from the list of flat
    dicts that [flatten_record] returns.  The embedding keeps that shape: a
    table is the list of its rows in table order, and a row is a finite map
    from column names to cell values.  Steps that can raise a Python
    exception return a [result]; the others are total functions.  The
    loader is embedded on the document that [json.load] has parsed, with the
    exceptions that Python raises on a document of another shape.

    Conventions of the model, each recalled where it is used:
    - cell text is ASCII (a Rocq [string] is a sequence of bytes);
    - a number is given by its exact rational value; IEEE infinities and
      the rounding error of binary floating point are outside the model;
    - the library routines of pandas and of Python's [re] and [int] are
      written out as functions, from their documented behaviour;
      [pd.to_datetime] with a [format] is the exact match of pandas 2, where
      the whole text has to fit the format. *)

From Stdlib Require Import ZArith QArith Qround Qabs Lqa String Ascii List Lia Bool.
From stdpp Require Import gmap strings list fin_maps.

Open Scope Z_scope.

(** ** Cell values and exceptions *)

(** What a cell of the DataFrame holds.  [VNone] stands for every missing
    marker of pandas ([None], [NaN], [NaT]): exactly the values on which
    [pd.isna] is true.  [VDate y m d] is a [Timestamp] at midnight. *)
Inductive value : Type :=
| VNone
| VStr (s : string)
| VNum (q : Q)
| VBool (b : bool)
| VDate (y m d : Z).

Definition NaT : value := VNone.
Definition NaN : value := VNone.

Inductive exn : Type := ValueError | TypeError.

Inductive result (A : Type) : Type :=
| Ok (a : A)
| Raise (e : exn).
Arguments Ok {A} a.
Arguments Raise {A} e.

(** Sequencing: an exception ends the computation.  With these instances
    [x ← r; k] reads as the statement [x = r] followed by [k]. *)
#[global] Instance result_ret : MRet result := fun _ a => Ok a.
#[global] Instance result_bind : MBind result := fun _ _ k r =>
  match r with
  | Ok a => k a
  | Raise e => Raise e
  end.

(** [try: r except (ValueError, TypeError): return pd.NaT] *)
Definition except_NaT (r : result value) : result value :=
  match r with
  | Ok v => Ok v
  | Raise _ => Ok NaT
  end.

(** [[f(x) for x in l]], stopping at the first exception. *)
Fixpoint mapM_result {A B} (f : A -> result B) (l : list A) : result (list B) :=
  match l with
  | [] => Ok []
  | x :: l' => y ← f x; ys ← mapM_result f l'; Ok (y :: ys)
  end.

(** ** Python text operations *)

Module Py.

Definition code (c : ascii) : Z := Z.of_nat (nat_of_ascii c).

(** [str.isspace] on ASCII: tab, line feed, vertical tab, form feed, carriage
    return, the four separators 28..31 and the space. *)
Definition is_space (c : ascii) : bool :=
  ((9 <=? code c) && (code c <=? 13)) || ((28 <=? code c) && (code c <=? 32)).

Definition is_digit (c : ascii) : bool := (48 <=? code c) && (code c <=? 57).
Definition is_upper (c : ascii) : bool := (65 <=? code c) && (code c <=? 90).
Definition is_lower (c : ascii) : bool := (97 <=? code c) && (code c <=? 122).
Definition is_letter (c : ascii) : bool := is_upper c || is_lower c.

Definition digit_val (c : ascii) : Z := code c - 48.
Definition digit_char (n : Z) : ascii := ascii_of_nat (Z.to_nat (48 + n)).

Fixpoint lstrip (s : string) : string :=
  match s with
  | String c s' => if is_space c then lstrip s' else s
  | EmptyString => EmptyString
  end.

Fixpoint rstrip (s : string) : string :=
  match s with
  | String c s' =>
      match rstrip s' with
      | EmptyString => if is_space c then EmptyString else String c EmptyString
      | t => String c t
      end
  | EmptyString => EmptyString
  end.

(** [s.strip()] *)
Definition strip (s : string) : string := rstrip (lstrip s).

(** [c in s] for a one-character [c] *)
Fixpoint contains (c : ascii) (s : string) : bool :=
  match s with
  | String c' s' => Ascii.eqb c c' || contains c s'
  | EmptyString => false
  end.

(** [s.split(c)]: the result always has at least one part. *)
Fixpoint split (c : ascii) (s : string) : list string :=
  match s with
  | EmptyString => [EmptyString]
  | String c' s' =>
      if Ascii.eqb c c' then EmptyString :: split c s'
      else match split c s' with
           | p :: ps => String c' p :: ps
           | [] => [String c' EmptyString]
           end
  end.

(** The digits of an integer literal after the sign: decimal digits, single
    underscores allowed between two digits.  [prev] tells whether the
    character just read was a digit. *)
Fixpoint int_digits (prev : bool) (acc : Z) (s : string) : option Z :=
  match s with
  | EmptyString => if prev then Some acc else None
  | String c s' =>
      if is_digit c then int_digits true (10 * acc + digit_val c) s'
      else if Ascii.eqb c "_" && prev then int_digits false acc s'
      else None
  end.

(** [int(s)] for a string: surrounding whitespace is dropped, one sign is
    allowed; anything else raises [ValueError]. *)
Definition int (s : string) : result Z :=
  let t := strip s in
  let parsed :=
    match t with
    | String "+" r => int_digits false 0 r
    | String "-" r => option_map Z.opp (int_digits false 0 r)
    | _ => int_digits false 0 t
    end in
  match parsed with
  | Some z => Ok z
  | None => Raise ValueError
  end.

Definition pad2 (n : Z) : string :=
  String (digit_char (n / 10 mod 10)) (String (digit_char (n mod 10)) EmptyString).

Definition pad4 (n : Z) : string := pad2 (n / 100) +:+ pad2 n.

End Py.

(** ** The pandas routines the date step calls *)

Module Pandas.

(** [pd.isna(v)] on a scalar *)
Definition isna (v : value) : bool :=
  match v with
  | VNone => true
  | _ => false
  end.

Definition notna (v : value) : bool := negb (isna v).

(** The directives of the four formats [parse_dob] passes to
    [pd.to_datetime]. *)
Inductive directive : Type :=
| DirY                (* %Y : exactly four digits *)
| Dirm                (* %m : 1[0-2] | 0[1-9] | [1-9] *)
| Dird                (* %d : 3[0-1] | [1-2]\d | 0[1-9] | [1-9] *)
| Lit (c : ascii).

Definition Ymd_dash : list directive := [DirY; Lit "-"; Dirm; Lit "-"; Dird].
Definition Ymd_slash : list directive := [DirY; Lit "/"; Dirm; Lit "/"; Dird].
Definition dmY_slash : list directive := [Dird; Lit "/"; Dirm; Lit "/"; DirY].
Definition mdY_slash : list directive := [Dirm; Lit "/"; Dird; Lit "/"; DirY].

Definition is_leap (y : Z) : bool :=
  (y mod 4 =? 0) && (negb (y mod 100 =? 0) || (y mod 400 =? 0)).

Definition days_in_month (y m : Z) : Z :=
  if m =? 2 then (if is_leap y then 29 else 28)
  else if (m =? 4) || (m =? 6) || (m =? 9) || (m =? 11) then 30
  else 31.

Definition orelse {A} (a b : option A) : option A :=
  match a with
  | Some _ => a
  | None => b
  end.

(** Matching a string against a format, directive by directive, as the
    regular expression built from the format does: a two-digit reading of
    [%m] or [%d] is tried before the one-digit reading, and the whole string
    has to be used up ([exact=True]). *)
Fixpoint strptime (fmt : list directive) (s : string) (y m d : Z) : option (Z * Z * Z) :=
  match fmt with
  | [] => match s with
          | EmptyString => Some (y, m, d)
          | _ => None
          end
  | Lit c :: fmt' =>
      match s with
      | String c' s' => if Ascii.eqb c c' then strptime fmt' s' y m d else None
      | EmptyString => None
      end
  | DirY :: fmt' =>
      match s with
      | String a (String b (String c (String e s'))) =>
          if Py.is_digit a && Py.is_digit b && Py.is_digit c && Py.is_digit e
          then strptime fmt' s'
                 (1000 * Py.digit_val a + 100 * Py.digit_val b
                  + 10 * Py.digit_val c + Py.digit_val e) m d
          else None
      | _ => None
      end
  | Dirm :: fmt' =>
      orelse
        match s with
        | String a (String b s') =>
            let v := 10 * Py.digit_val a + Py.digit_val b in
            if Py.is_digit a && Py.is_digit b && (1 <=? v) && (v <=? 12)
            then strptime fmt' s' y v d else None
        | _ => None
        end
        match s with
        | String a s' =>
            if Py.is_digit a && (1 <=? Py.digit_val a)
            then strptime fmt' s' y (Py.digit_val a) d else None
        | EmptyString => None
        end
  | Dird :: fmt' =>
      orelse
        match s with
        | String a (String b s') =>
            let v := 10 * Py.digit_val a + Py.digit_val b in
            if Py.is_digit a && Py.is_digit b && (1 <=? v) && (v <=? 31)
            then strptime fmt' s' y m v else None
        | _ => None
        end
        match s with
        | String a s' =>
            if Py.is_digit a && (1 <=? Py.digit_val a)
            then strptime fmt' s' y m (Py.digit_val a) else None
        | EmptyString => None
        end
  end.

(** [pd.to_datetime(s, format=fmt)] on one string: the fields have to name a
    day of the calendar, else [ValueError].  The bounds of the nanosecond
    representation of [Timestamp] are not modelled. *)
Definition to_datetime (s : string) (fmt : list directive) : result value :=
  match strptime fmt s 0 0 0 with
  | Some (y, m, d) =>
      if (1 <=? y) && (1 <=? m) && (m <=? 12) && (1 <=? d) && (d <=? days_in_month y m)
      then Ok (VDate y m d)
      else Raise ValueError
  | None => Raise ValueError
  end.

End Pandas.

(** [str(v)].  The text of a [Timestamp] at midnight is its ISO date
    followed by [ 00:00:00].  The text of a number is not spelled out
    ([None]): what the pipeline needs of it is said in [parse_dob] and in
    [is_valid_email]. *)
Definition py_str (v : value) : option string :=
  match v with
  | VNone => Some "None"
  | VStr s => Some s
  | VBool true => Some "True"
  | VBool false => Some "False"
  | VDate y m d =>
      Some (Py.pad4 y +:+ "-" +:+ Py.pad2 m +:+ "-" +:+ Py.pad2 d +:+ " 00:00:00")
  | VNum _ => None
  end.

(** [v == s] for a string literal [s]: only a string cell can be equal. *)
Definition eq_str (v : value) (s : string) : bool :=
  match v with
  | VStr t => String.eqb t s
  | _ => false
  end.

(** ** Numbers *)

Module Num.

(** [numpy.rint]: the nearest whole number, a tie going to the even one.
    This is what [Series.round] computes on floats. *)
Definition round_half_even (q : Q) : Z :=
  let f := Qfloor q in
  match Qcompare (2 * (q - inject_Z f)) 1 with
  | Lt => f
  | Gt => f + 1
  | Eq => if Z.even f then f else f + 1
  end.

(** [Series.round(decimals)] on one number: [rint(x * 10^decimals) /
    10^decimals], kept in lowest terms. *)
Definition round (decimals : Z) (q : Q) : Q :=
  let scale := inject_Z (10 ^ decimals) in
  Qred (inject_Z (round_half_even (q * scale)) / scale).

(** A run of decimal digits: the number read so far, how many digits were
    read, and the rest of the text. *)
Fixpoint digits (s : string) (acc : Z) (n : Z) : Z * Z * string :=
  match s with
  | String c s' =>
      if Py.is_digit c then digits s' (10 * acc + Py.digit_val c) (n + 1)
      else (acc, n, s)
  | EmptyString => (acc, n, s)
  end.

Definition sign (s : string) : Z * string :=
  match s with
  | String "+" r => (1, r)
  | String "-" r => (-1, r)
  | _ => (1, s)
  end.

(** The exponent part of a literal: nothing, or [e]/[E], an optional sign
    and at least one digit, up to the end of the text. *)
Definition exponent (s : string) : option Z :=
  match s with
  | EmptyString => Some 0
  | String c r =>
      if Ascii.eqb c "e" || Ascii.eqb c "E" then
        let '(sg, r1) := sign r in
        match digits r1 0 0 with
        | (e, n, EmptyString) => if 0 <? n then Some (sg * e) else None
        | _ => None
        end
      else None
  end.

Definition pow10 (m e : Z) : Q :=
  if 0 <=? e then inject_Z (m * 10 ^ e)
  else Qred (Qmake m (Z.to_pos (10 ^ (- e)))).

(** The decimal literals that the string-to-float routine of pandas reads:
    surrounding whitespace, a sign, digits with an optional fraction, an
    optional exponent.  The result is the exact value of the literal.  The
    names of the IEEE specials ([inf], [nan] and their variants) are not
    read: every number of the model is finite. *)
Definition float_literal (s : string) : option Q :=
  let '(sg, r) := sign (Py.strip s) in
  let '(ip, ni, r1) := digits r 0 0 in
  let '(m, nf, r2) :=
    match r1 with
    | String "." r' => digits r' ip 0
    | _ => (ip, 0, r1)
    end in
  if 0 <? ni + nf then
    match exponent r2 with
    | Some e => Some (pow10 (sg * m) (e - nf))
    | None => None
    end
  else None.

End Num.

(** ** Tables *)

Abbreviation row := (gmap string value).
Abbreviation table := (list (gmap string value)).

(** [df[c]] read at one row, and [row.get(c)]: the flattener writes every
    key of its column set into every dict, and [pd.DataFrame] fills a key
    that a dict lacks with [NaN]. *)
Definition col (c : string) (r : row) : value := default NaN (r !! c).

(** [df[c] = f(row)], row by row *)
Definition assign (c : string) (f : row -> value) (df : table) : table :=
  List.map (fun r => <[c := f r]> r) df.

(** [df[c] = df[c].apply(f)] for an [f] that may raise *)
Definition apply_col (c : string) (f : value -> result value) (df : table) : result table :=
  mapM_result (fun r => v ← f (col c r); Ok (<[c := v]> r)) df.

(** [df.drop(columns=cs)] *)
Definition drop_columns (cs : list string) (df : table) : table :=
  List.map (fun r => fold_right (fun c r' => delete c r') r cs) df.

Module Hash.

(** Equality of two cells as the hash tables of pandas see it (the ones
    behind [isin], [drop_duplicates], [value_counts] and [Series.map] with
    a dict): missing markers are all equal, a bool is the number 0 or 1,
    numbers are compared by value. *)
Definition as_number (v : value) : option Q :=
  match v with
  | VNum q => Some q
  | VBool b => Some (if b then 1%Q else 0%Q)
  | _ => None
  end.

Definition eqb (a b : value) : bool :=
  match as_number a, as_number b with
  | Some p, Some q => Qeq_bool p q
  | None, None =>
      match a, b with
      | VNone, VNone => true
      | VStr s, VStr t => String.eqb s t
      | VDate y m d, VDate y' m' d' => (y =? y') && (m =? m') && (d =? d')
      | _, _ => false
      end
  | _, _ => false
  end.

(** [v in vals], [Series.isin(vals)] at one cell *)
Definition isin (v : value) (vals : list value) : bool :=
  existsb (eqb v) vals.

(** [Series.map(d)] at one cell for a dict [d] given as its items: a key
    that is not in the dict maps to [NaN]. *)
Definition map_dict (d : list (value * value)) (v : value) : value :=
  match List.find (fun kv => eqb (fst kv) v) d with
  | Some kv => snd kv
  | None => NaN
  end.

(** [df.drop_duplicates(subset=[c], keep="first")]: go through the rows in
    table order, keep a row when its key has not been seen yet. *)
Fixpoint drop_duplicates (key : row -> value) (seen : list value) (df : table) : table :=
  match df with
  | [] => []
  | r :: df' =>
      if isin (key r) seen then drop_duplicates key seen df'
      else r :: drop_duplicates key (key r :: seen) df'
  end.

(** [Series.value_counts()]: each distinct value with the number of cells
    holding it (the order of the entries plays no part here). *)
Fixpoint bump (v : value) (counts : list (value * nat)) : list (value * nat) :=
  match counts with
  | [] => [(v, 1%nat)]
  | (w, n) :: counts' =>
      if eqb w v then (w, S n) :: counts' else (w, n) :: bump v counts'
  end.

Definition value_counts (l : list value) : list (value * nat) :=
  fold_left (fun counts v => bump v counts) l [].

End Hash.

(** ** Regular expressions, as far as [validate_emails] needs them *)

Module Re.

Inductive regex : Type :=
| Void
| Eps
| Class (p : ascii -> bool)
| Cat (r1 r2 : regex)
| Alt (r1 r2 : regex)
| Star (r : regex).

Definition Chr (c : ascii) : regex := Class (Ascii.eqb c).
(** [r+] and [r{2,}] *)
Definition Plus (r : regex) : regex := Cat r (Star r).
Definition AtLeast2 (r : regex) : regex := Cat r (Cat r (Star r)).

Definition LF : ascii := ascii_of_nat 10.

(** A [$] that ends a pattern compiled without [re.MULTILINE]: it holds at
    the end of the text and just before a line feed that ends the text. *)
Definition Dollar : regex := Alt Eps (Chr LF).

Fixpoint nullable (r : regex) : bool :=
  match r with
  | Void => false
  | Eps => true
  | Class _ => false
  | Cat r1 r2 => nullable r1 && nullable r2
  | Alt r1 r2 => nullable r1 || nullable r2
  | Star _ => true
  end.

(** What is left of [r] once the character [c] has been read *)
Fixpoint deriv (c : ascii) (r : regex) : regex :=
  match r with
  | Void => Void
  | Eps => Void
  | Class p => if p c then Eps else Void
  | Cat r1 r2 =>
      if nullable r1 then Alt (Cat (deriv c r1) r2) (deriv c r2)
      else Cat (deriv c r1) r2
  | Alt r1 r2 => Alt (deriv c r1) (deriv c r2)
  | Star r1 => Cat (deriv c r1) (Star r1)
  end.

(** Does the whole of [s] match [r]? *)
Fixpoint fullmatch (r : regex) (s : string) : bool :=
  match s with
  | EmptyString => nullable r
  | String c s' => fullmatch (deriv c r) s'
  end.

(** [bool(p.match(s))] for a pattern [^ body $]: [match] looks for a match
    that starts at the first character, and the closing [$] makes it reach
    the end of the text, up to one final line feed. *)
Definition match_anchored (body : regex) (s : string) : bool :=
  fullmatch (Cat body Dollar) s.

End Re.

(** * The cleaning steps *)

(** ** remove_duplicates *)

Definition duplicate_notes : list value :=
  [VStr "DUPLICATE_ENTRY_ERROR"; VStr "RESUBMISSION"].

Definition remove_duplicates (df : table) : table :=
  (* mask = df["notes"].isin([...]); df = df[~mask].copy() *)
  let df := List.filter (fun r => negb (Hash.isin (col "notes" r) duplicate_notes)) df in
  (* df = df.drop_duplicates(subset=["app_id"], keep="first") *)
  Hash.drop_duplicates (col "app_id") [] df.

(** ** standardize_gender *)

Definition gender_map : list (value * value) :=
  [ (VStr "Male", VStr "Male");
    (VStr "M", VStr "Male");
    (VStr "Female", VStr "Female");
    (VStr "F", VStr "Female");
    (VStr "", NaN);
    (VNone, NaN) ].

Definition standardize_gender (df : table) : table :=
  let df := assign "gender_original" (col "gender") df in
  assign "gender" (fun r => Hash.map_dict gender_map (col "gender" r)) df.

(** ** normalize_dates *)

(** The text of a number is made of digits, a sign, a point, [e], [inf] or
    [nan]: it holds no [/] and does not fit [%Y-%m-%d], so a number that
    passes the first test ends in [NaT] whichever branch it takes; the
    model returns that at once instead of spelling the text out. *)
Definition parse_dob (val : value) : result value :=
  if Pandas.isna val || eq_str val "" || eq_str val "None" then Ok NaT else
  match py_str val with
  | None => Ok NaT
  | Some text =>
      let val := Py.strip text in
      if String.eqb val "" then Ok NaT else
      (* ISO format: YYYY-MM-DD *)
      if Py.contains "-" val then
        except_NaT (Pandas.to_datetime val Pandas.Ymd_dash)
      (* slash-based formats *)
      else if Py.contains "/" val then
        let parts := Py.split "/" val in
        if negb (length parts =? 3)%nat then Ok NaT else
        (* YYYY/MM/DD: first part is 4 characters long *)
        if (String.length (nth 0 parts "") =? 4)%nat then
          except_NaT (Pandas.to_datetime val Pandas.Ymd_slash)
        else
          (* first, second = int(parts[0]), int(parts[1]): not guarded *)
          first ← Py.int (nth 0 parts "");
          second ← Py.int (nth 1 parts "");
          (* if first > 12, it must be DD *)
          if 12 <? first then
            except_NaT (Pandas.to_datetime val Pandas.dmY_slash)
          (* if second > 12, it must be DD, so first is MM *)
          else if 12 <? second then
            except_NaT (Pandas.to_datetime val Pandas.mdY_slash)
          (* ambiguous case: both <= 12, default to DD/MM/YYYY *)
          else
            except_NaT (Pandas.to_datetime val Pandas.dmY_slash)
      else Ok NaT
  end.

Definition normalize_dates (df : table) : result table :=
  let df := assign "date_of_birth_original" (col "date_of_birth") df in
  apply_col "date_of_birth" parse_dob df.

(** ** fix_income_types *)

(** [pd.to_numeric(..., errors="coerce")] at one cell: what is not a number
    and cannot be read as one becomes [NaN]. *)
Definition to_numeric_coerce (v : value) : value :=
  match v with
  | VNum q => VNum q
  | VBool b => VNum (if b then 1 else 0)
  | VStr s =>
      match Num.float_literal s with
      | Some q => VNum q
      | None => NaN
      end
  | VNone => NaN
  | VDate _ _ _ => NaN
  end.

(** [Series.round(decimals)] at one cell of a numeric column *)
Definition round_cell (decimals : Z) (v : value) : value :=
  match v with
  | VNum q => VNum (Num.round decimals q)
  | _ => v
  end.

Definition fix_income_types (df : table) : table :=
  let df := assign "annual_income" (fun r => to_numeric_coerce (col "annual_income" r)) df in
  assign "annual_income" (fun r => round_cell 0 (col "annual_income" r)) df.

(** ** fix_invalid_values *)

(** [v < 0] inside [Series < 0]: a missing cell compares false, text and
    timestamps cannot be ordered against an int. *)
Definition lt_zero (v : value) : result bool :=
  match v with
  | VNone => Ok false
  | VNum q => Ok (negb (Qle_bool 0 q))
  | VBool _ => Ok false
  | VStr _ => Raise TypeError
  | VDate _ _ _ => Raise TypeError
  end.

(** [df.loc[mask, c] = v] *)
Fixpoint set_where (mask : list bool) (c : string) (v : value) (df : table) : table :=
  match mask, df with
  | b :: mask', r :: df' =>
      (if b then <[c := v]> r else r) :: set_where mask' c v df'
  | _, _ => df
  end.

Definition set_negative_to_nan (c : string) (df : table) : result table :=
  neg ← mapM_result (fun r => lt_zero (col c r)) df;
  let n_neg := length (List.filter id neg) in
  if (0 <? n_neg)%nat then Ok (set_where neg c NaN df) else Ok df.

Definition fix_invalid_values (df : table) : result table :=
  df ← set_negative_to_nan "credit_history_months" df;
  set_negative_to_nan "savings_balance" df.

(** ** validate_emails *)

Definition local_char (c : ascii) : bool :=
  Py.is_letter c || Py.is_digit c
  || Ascii.eqb c "." || Ascii.eqb c "_" || Ascii.eqb c "%"
  || Ascii.eqb c "+" || Ascii.eqb c "-".

Definition domain_char (c : ascii) : bool :=
  Py.is_letter c || Py.is_digit c || Ascii.eqb c "." || Ascii.eqb c "-".

(** [[a-zA-Z0-9._%+-]+@[a-zA-Z0-9.-]+\.[a-zA-Z]{2,}], the pattern between
    [^] and [$] *)
Definition email_body : Re.regex :=
  Re.Cat (Re.Plus (Re.Class local_char))
    (Re.Cat (Re.Chr "@")
       (Re.Cat (Re.Plus (Re.Class domain_char))
          (Re.Cat (Re.Chr ".") (Re.AtLeast2 (Re.Class Py.is_letter))))).

(** The text of a number holds no [@]: it never matches. *)
Definition is_valid_email (val : value) : bool :=
  if Pandas.isna val || eq_str val "" then false else
  match py_str val with
  | None => false
  | Some text => Re.match_anchored email_body text
  end.

Definition validate_emails (df : table) : table :=
  assign "email_valid" (fun r => VBool (is_valid_email (col "email" r))) df.

(** ** flag_missing_fields *)

Definition core_fields : list string :=
  [ "full_name"; "email"; "ssn"; "ip_address"; "gender";
    "date_of_birth"; "zip_code"; "annual_income";
    "credit_history_months"; "debt_to_income"; "savings_balance";
    "loan_approved" ].

Definition count_complete (r : row) : Z :=
  fold_left
    (fun complete field =>
       let val := col field r in
       if Pandas.notna val && negb (eq_str val "") then complete + 1 else complete)
    core_fields 0.

(** The score of a row as a number, for the arithmetic of the next column *)
Definition score_of (v : value) : Q :=
  match v with
  | VNum q => q
  | _ => 0
  end.

Definition flag_missing_fields (df : table) : table :=
  let df := assign "completeness_score" (fun r => VNum (inject_Z (count_complete r))) df in
  assign "completeness_pct"
    (fun r =>
       round_cell 1
         (VNum (score_of (col "completeness_score" r)
                / inject_Z (Z.of_nat (length core_fields)) * 100)))
    df.

(** ** flag_ssn_duplicates *)

Definition flag_ssn_duplicates (df : table) : table :=
  let ssn_valid :=
    List.filter (fun r => Pandas.notna (col "ssn" r) && negb (eq_str (col "ssn" r) "")) df in
  let ssn_counts := Hash.value_counts (List.map (col "ssn") ssn_valid) in
  let dup_ssns := List.map fst (List.filter (fun vn => (1 <? snd vn)%nat) ssn_counts) in
  assign "ssn_duplicate_flag" (fun r => VBool (Hash.isin (col "ssn" r) dup_ssns)) df.

(** ** clean_pipeline *)

Definition clean_pipeline (df : table) : result table :=
  let df := remove_duplicates df in
  let df := standardize_gender df in
  df ← normalize_dates df;
  let df := fix_income_types df in
  df ← fix_invalid_values df;
  let df := validate_emails df in
  let df := flag_missing_fields df in
  let df := flag_ssn_duplicates df in
  Ok df.

(** The audit columns that a second run starts without *)
Definition audit_columns : list string := ["gender_original"; "date_of_birth_original"].

(** * The loader (src/data_loader.py) *)

(** ** JSON values and the Python operations on them *)

Module Json.

(** What [json.load] returns: [None], a bool, a number, a [str], a [list]
    or a [dict] with [str] keys.  A dict is only read by key, so it is a
    finite map.  Numbers are exact rationals, as in the tables. *)
#[warnings="-register-all"]
Inductive json : Type :=
| JNull
| JBool (b : bool)
| JNum (q : Q)
| JStr (s : string)
| JArr (items : list json)
| JObj (fields : gmap string json).

(** The exceptions that the loader meets on a parsed document *)
Inductive error : Type := AttributeError | TypeError.

Inductive outcome (A : Type) : Type :=
| Returns (a : A)
| Raises (e : error).
Arguments Returns {A} a.
Arguments Raises {A} e.

#[global] Instance outcome_ret : MRet outcome := fun _ a => Returns a.
#[global] Instance outcome_bind : MBind outcome := fun _ _ k r =>
  match r with
  | Returns a => k a
  | Raises e => Raises e
  end.

(** [[f(x) for x in l]], stopping at the first exception. *)
Fixpoint mapM {A B} (f : A -> outcome B) (l : list A) : outcome (list B) :=
  match l with
  | [] => Returns []
  | x :: l' => y ← f x; ys ← mapM f l'; Returns (y :: ys)
  end.

(** [o.get(k, d)]: only a dict has a [get]; a key that is present with the
    value [None] gives [None], not the default. *)
Definition get (o : json) (k : string) (d : json) : outcome json :=
  match o with
  | JObj fields => Returns (default d (fields !! k))
  | _ => Raises AttributeError
  end.

(** [iter(o)], the items that a [for] goes through: the items of a list,
    the characters of a [str], the keys of a dict (their order plays no
    part below: each of them is a [str]). *)
Definition iter (o : json) : outcome (list json) :=
  match o with
  | JArr items => Returns items
  | JStr s => Returns (List.map (fun c => JStr (String c EmptyString)) (list_ascii_of_string s))
  | JObj fields => Returns (List.map (fun kv => JStr (fst kv)) (map_to_list fields))
  | _ => Raises TypeError
  end.

(** [len(o)] *)
Definition len (o : json) : outcome Z :=
  match o with
  | JArr items => Returns (Z.of_nat (length items))
  | JStr s => Returns (Z.of_nat (String.length s))
  | JObj fields => Returns (Z.of_nat (size fields))
  | _ => Raises TypeError
  end.

(** [acc + x] for a number [acc]: a bool counts as 0 or 1, and what is not
    a number cannot be added to one.  The sum is the exact one: the
    rounding of a float addition is outside the model. *)
Definition add (acc : Q) (x : json) : outcome Q :=
  match x with
  | JNum q => Returns (acc + q)%Q
  | JBool b => Returns (acc + (if b then 1 else 0))%Q
  | _ => Raises TypeError
  end.

(** [sum(term(item) for item in items)], from the accumulator [acc]: the
    generator is consumed one item at a time, so the term of an item is
    computed and added before the next item is looked at. *)
Fixpoint sum_from (term : json -> outcome json) (acc : Q) (items : list json) : outcome Q :=
  match items with
  | [] => Returns acc
  | item :: items' =>
      x ← term item;
      acc ← add acc x;
      sum_from term acc items'
  end.

Definition as_str (v : json) : outcome string :=
  match v with
  | JStr s => Returns s
  | _ => Raises TypeError
  end.

(** [sep.join(parts)]: every part has to be a [str]. *)
Definition join (sep : string) (parts : list json) : outcome string :=
  strs ← mapM as_str parts;
  Returns (String.concat sep strs).

End Json.

Section Loader.

Import Json.

(** ** flatten_record *)

(** [flat[c] = r] *)
Definition store (c : string) (r : outcome json) (flat : gmap string json) :
    outcome (gmap string json) :=
  v ← r; Returns (<[c := v]> flat).

Definition flatten_record (record : json) : outcome (gmap string json) :=
  let flat : gmap string json := ∅ in
  (* top-level fields *)
  flat ← store "app_id" (get record "_id" JNull) flat;
  (* applicant_info fields *)
  app_info ← get record "applicant_info" (JObj ∅);
  flat ← store "full_name" (get app_info "full_name" JNull) flat;
  flat ← store "email" (get app_info "email" JNull) flat;
  flat ← store "ssn" (get app_info "ssn" JNull) flat;
  flat ← store "ip_address" (get app_info "ip_address" JNull) flat;
  flat ← store "gender" (get app_info "gender" JNull) flat;
  flat ← store "date_of_birth" (get app_info "date_of_birth" JNull) flat;
  flat ← store "zip_code" (get app_info "zip_code" JNull) flat;
  (* financials *)
  fin ← get record "financials" (JObj ∅);
  flat ← store "annual_income" (get fin "annual_income" JNull) flat;
  flat ← store "credit_history_months" (get fin "credit_history_months" JNull) flat;
  flat ← store "debt_to_income" (get fin "debt_to_income" JNull) flat;
  flat ← store "savings_balance" (get fin "savings_balance" JNull) flat;
  (* spending behavior: flatten the array *)
  spending ← get record "spending_behavior" (JArr []);
  items ← iter spending;
  total ← sum_from (fun item => get item "amount" (JNum 0)) 0 items;
  flat ← store "spending_total" (Returns (JNum total)) flat;
  n ← len spending;
  flat ← store "spending_categories" (Returns (JNum (inject_Z n))) flat;
  (* store individual categories so we can analyze them later *)
  items ← iter spending;
  categories ← mapM (fun item => get item "category" (JStr "")) items;
  joined ← join "|" categories;
  flat ← store "spending_category_list" (Returns (JStr joined)) flat;
  (* decision *)
  dec ← get record "decision" (JObj ∅);
  flat ← store "loan_approved" (get dec "loan_approved" JNull) flat;
  flat ← store "interest_rate" (get dec "interest_rate" JNull) flat;
  flat ← store "approved_amount" (get dec "approved_amount" JNull) flat;
  flat ← store "rejection_reason" (get dec "rejection_reason" JNull) flat;
  (* extra fields that appear inconsistently *)
  flat ← store "processing_timestamp" (get record "processing_timestamp" JNull) flat;
  flat ← store "loan_purpose" (get record "loan_purpose" JNull) flat;
  flat ← store "notes" (get record "notes" JNull) flat;
  Returns flat.

(** ** load_raw_json and load_and_flatten *)

(** The document is given as [json.load] has parsed it: opening and parsing
    the file are outside the model.  The report line takes [len(data)]. *)
Definition load_raw_json (data : json) : outcome json :=
  _ ← len data;
  Returns data.

(** [pd.DataFrame(flat_records)] has one row for each flat dict, in their
    order: the rows are given here as the dicts themselves. *)
Definition load_and_flatten (data : json) : outcome (list (gmap string json)) :=
  raw_data ← load_raw_json data;
  records ← iter raw_data;
  mapM flatten_record records.

End Loader.

(** * The vocabulary of the statements *)

(** ** Sample rows and tables *)

(** A row that holds nothing but a date of birth *)
Definition dob_row (s : string) : row := {[ "date_of_birth" := VStr s ]}.

(** A row as the flattener writes it for an application that carries only
    its id and the three fields given. *)
Definition flat_row (app_id dob credit_history savings : value) : row :=
  list_to_map
    [ ("app_id", app_id); ("full_name", VNone); ("email", VNone); ("ssn", VNone);
      ("ip_address", VNone); ("gender", VNone); ("date_of_birth", dob);
      ("zip_code", VNone); ("annual_income", VNone);
      ("credit_history_months", credit_history); ("debt_to_income", VNone);
      ("savings_balance", savings);
      ("spending_total", VNum 0); ("spending_categories", VNum 0);
      ("spending_category_list", VStr "");
      ("loan_approved", VNone); ("interest_rate", VNone);
      ("approved_amount", VNone); ("rejection_reason", VNone);
      ("processing_timestamp", VNone); ("loan_purpose", VNone); ("notes", VNone) ].

(** An application with every core field but [email] (missing) and [ssn]
    (empty) *)
Definition applicant_without_email_and_ssn : row :=
  list_to_map
    [ ("full_name", VStr "Ana Silva"); ("email", VNone); ("ssn", VStr "");
      ("ip_address", VStr "10.0.0.1"); ("gender", VStr "Female");
      ("date_of_birth", VDate 1990 4 5); ("zip_code", VStr "1000");
      ("annual_income", VNum 52000); ("credit_history_months", VNum 24);
      ("debt_to_income", VNum (3 # 10)); ("savings_balance", VNum 1500);
      ("loan_approved", VBool false) ].

(** A row that holds nothing but an app_id and a note *)
Definition app_row (app_id notes : value) : row :=
  {[ "app_id" := app_id; "notes" := notes ]}.

(** Two applications, one with a date of birth that parses and a negative
    credit history, one without date *)
Definition two_applications : table :=
  [ {[ "app_id" := VStr "A1"; "date_of_birth" := VStr "2020-05-01";
       "credit_history_months" := VNum (-3) ]};
    {[ "app_id" := VStr "A2"; "email" := VStr "a@b.co" ]} ].

(** ** The shape of an email address *)

(** Every character of a text is in a class. *)
Definition all_chars (p : ascii → bool) (s : string) : bool :=
  forallb p (list_ascii_of_string s).

(** What the spec asks of an address: the whole text is a local part, [@],
    a domain part, a dot and at least two letters. *)
Definition email_shape (s : string) : Prop :=
  ∃ loc dom tld : string,
    s = loc +:+ "@" +:+ dom +:+ "." +:+ tld
    ∧ all_chars local_char loc = true ∧ (1 <= String.length loc)%nat
    ∧ all_chars domain_char dom = true ∧ (1 <= String.length dom)%nat
    ∧ all_chars Py.is_letter tld = true ∧ (2 <= String.length tld)%nat.

(** ** Values after a step *)

(** The income of a row after the step, from its income before *)
Definition income_after (v : value) : value := round_cell 0 (to_numeric_coerce v).

(** A value that is present and not the empty string *)
Definition present (v : value) : bool := Pandas.notna v && negb (eq_str v "").

(** How many of the core fields of a row are present *)
Definition n_present (r : row) : nat :=
  length (List.filter (fun field => present (col field r)) core_fields).

(** The percentage that belongs to a score *)
Definition pct_of (n : nat) : Q := Num.round 1 (inject_Z (Z.of_nat n) / 12 * 100).

(** A row in which exactly [email] and [ssn] are missing *)
Definition lacks_email_and_ssn (r : row) : Prop :=
  ∀ field, In field core_fields →
    present (col field r) = negb (String.eqb field "email" || String.eqb field "ssn").

(** ** Rows and keys in deduplication *)

(** A row whose [notes] field is one of the duplicate markers *)
Definition marked (r : row) : bool := Hash.isin (col "notes" r) duplicate_notes.

(** The rows that the first phase leaves *)
Definition unmarked_rows (df : table) : table :=
  List.filter (fun r => negb (marked r)) df.

(** The number of rows of a table that carry a given [app_id] *)
Definition rows_with_app_id (v : value) (df : table) : nat :=
  length (List.filter (fun r => Hash.eqb (col "app_id" r) v) df).

(** ** Counts of values *)

(** The count that [value_counts] holds for a value *)
Definition count_in (v : value) (counts : list (value * nat)) : nat :=
  match List.find (fun kn => Hash.eqb (fst kn) v) counts with
  | Some kn => snd kn
  | None => 0%nat
  end.

(** How many cells of a list hold a value *)
Definition count_eq (v : value) (l : list value) : nat :=
  length (List.filter (fun w => Hash.eqb w v) l).

(** No two entries of [value_counts] stand for the same value. *)
Fixpoint keys_distinct (counts : list (value * nat)) : Prop :=
  match counts with
  | [] => True
  | kn :: counts' =>
      Forall (fun kn' => Hash.eqb (fst kn) (fst kn') = false) counts'
      ∧ keys_distinct counts'
  end.

(** The values that [value_counts] holds more than once *)
Definition repeated (counts : list (value * nat)) : list value :=
  List.map fst (List.filter (fun vn => (1 <? snd vn)%nat) counts).

(** On how many rows of the table the SSN is present, not empty, and the
    given one *)
Definition ssn_occurrences (v : value) (df : table) : nat :=
  length (List.filter (fun r => present (col "ssn" r) && Hash.eqb (col "ssn" r) v) df).

(** ** Texts and formats of dates *)

(** The text of a timestamp, character by character *)
Definition timestamp_text (a b c e f g h i : ascii) : string :=
  String a (String b (String c (String e (String "-"
    (String f (String g (String "-" (String h (String i " 00:00:00"))))))))).

(** The longest text a format can match *)
Fixpoint max_length (fmt : list Pandas.directive) : nat :=
  match fmt with
  | [] => 0
  | Pandas.DirY :: fmt' => 4 + max_length fmt'
  | Pandas.Dirm :: fmt' => 2 + max_length fmt'
  | Pandas.Dird :: fmt' => 2 + max_length fmt'
  | Pandas.Lit _ :: fmt' => 1 + max_length fmt'
  end%nat.

(** The format that the slash branch chooses from the first two parts *)
Definition slash_format (first second : Z) : list Pandas.directive :=
  if 12 <? first then Pandas.dmY_slash
  else if 12 <? second then Pandas.mdY_slash
  else Pandas.dmY_slash.

(** ** The steps on one row *)

(** The steps on one row.  The two steps that can raise are given here
    by what they do to a row on which they do not raise. *)
Definition gender_step (r : row) : row :=
  <["gender" := Hash.map_dict gender_map (col "gender" r)]>
    (<["gender_original" := col "gender" r]> r).

(** The date of birth that the date step writes when it does not raise *)
Definition dob_after (v : value) : value :=
  match parse_dob v with
  | Ok d => d
  | Raise _ => NaT
  end.

Definition dates_step (r : row) : row :=
  <["date_of_birth" := dob_after (col "date_of_birth" r)]>
    (<["date_of_birth_original" := col "date_of_birth" r]> r).

Definition income_step (r : row) : row :=
  <["annual_income" := round_cell 0 (to_numeric_coerce (col "annual_income" r))]>
    (<["annual_income" := to_numeric_coerce (col "annual_income" r)]> r).

(** A value after the invalid-value step: a negative number becomes [NaN] *)
Definition nonneg (v : value) : value :=
  match lt_zero v with
  | Ok true => NaN
  | _ => v
  end.

Definition nonneg_step (c : string) (r : row) : row :=
  match lt_zero (col c r) with
  | Ok true => <[c := NaN]> r
  | _ => r
  end.

Definition email_step (r : row) : row :=
  <["email_valid" := VBool (is_valid_email (col "email" r))]> r.

Definition score_step (r : row) : row :=
  <["completeness_pct" := VNum (pct_of (n_present r))]>
    (<["completeness_score" := VNum (inject_Z (Z.of_nat (n_present r)))]> r).

(** The steps between deduplication and the SSN flag, in pipeline order *)
Definition clean_row (r : row) : row :=
  score_step
    (email_step
       (nonneg_step "savings_balance"
          (nonneg_step "credit_history_months"
             (income_step (dates_step (gender_step r)))))).

(** A row on which neither the date step nor the invalid-value step
    raises *)
Definition row_ok (r : row) : Prop :=
  (∃ v, parse_dob (col "date_of_birth" r) = Ok v)
  ∧ (∃ b, lt_zero (col "credit_history_months" r) = Ok b)
  ∧ (∃ b, lt_zero (col "savings_balance" r) = Ok b).

(** ** The second run *)

(** The row that the second run starts from: the cleaned row with its SSN
    flag, without the two audit columns *)
Definition rerun_input (flag : value) (r : row) : row :=
  delete "gender_original"
    (delete "date_of_birth_original" (<["ssn_duplicate_flag" := flag]> (clean_row r))).

(** The core fields of a row once it is cleaned, from the row before *)
Definition core_after (r : row) : list value :=
  [ col "full_name" r; col "email" r; col "ssn" r; col "ip_address" r;
    Hash.map_dict gender_map (col "gender" r);
    dob_after (col "date_of_birth" r);
    col "zip_code" r;
    income_after (col "annual_income" r);
    nonneg (col "credit_history_months" r);
    col "debt_to_income" r;
    nonneg (col "savings_balance" r);
    col "loan_approved" r ].

(** How many values of a list are present and not the empty string *)
Definition present_count (vs : list value) : nat := length (List.filter present vs).

(** The pipeline run on its own output without the audit columns *)
Definition rerun (df : table) : result table :=
  t1 ← clean_pipeline df;
  clean_pipeline (drop_columns audit_columns t1).

(** The columns [cs] of the table that a run returns, row by row *)
Definition read_columns (cs : list string) (run : result table) : result (list (list value)) :=
  t ← run;
  Ok (List.map (fun r => List.map (fun c => col c r) cs) t).

(** ** The texts of a regular expression *)

(** The texts that a regular expression denotes *)
Inductive matches : Re.regex → string → Prop :=
| MEps : matches Re.Eps EmptyString
| MClass p c : p c = true → matches (Re.Class p) (String c EmptyString)
| MCat r1 r2 s1 s2 :
    matches r1 s1 → matches r2 s2 → matches (Re.Cat r1 r2) (s1 +:+ s2)
| MAltL r1 r2 s : matches r1 s → matches (Re.Alt r1 r2) s
| MAltR r1 r2 s : matches r2 s → matches (Re.Alt r1 r2) s
| MStarNil r : matches (Re.Star r) EmptyString
| MStarApp r s1 s2 :
    matches r s1 → matches (Re.Star r) s2 → matches (Re.Star r) (s1 +:+ s2).

(** ** Written dates *)

(** A day of the calendar *)
Definition valid_date (y m d : Z) : Prop :=
  1 <= m <= 12 ∧ 1 <= d <= Pandas.days_in_month y m.

(** A date written with a four-digit year and two-digit month and day, in
    the four orders that [parse_dob] knows *)
Definition iso_text (y m d : Z) : string :=
  Py.pad4 y +:+ "-" +:+ Py.pad2 m +:+ "-" +:+ Py.pad2 d.

Definition ymd_text (y m d : Z) : string :=
  Py.pad4 y +:+ "/" +:+ Py.pad2 m +:+ "/" +:+ Py.pad2 d.

Definition dmy_text (y m d : Z) : string :=
  Py.pad2 d +:+ "/" +:+ Py.pad2 m +:+ "/" +:+ Py.pad4 y.

Definition mdy_text (y m d : Z) : string :=
  Py.pad2 m +:+ "/" +:+ Py.pad2 d +:+ "/" +:+ Py.pad4 y.

(** A character that is the decimal digit [k] *)
Definition digit_of (c : ascii) (k : Z) : Prop :=
  Py.is_digit c = true ∧ Py.digit_val c = k ∧ Py.is_space c = false
  ∧ Ascii.eqb "-" c = false ∧ Ascii.eqb "/" c = false.

(** Ten characters: a year of four, two pairs and two separators, the year
    first (YYYY-MM-DD, YYYY/MM/DD) or last (DD/MM/YYYY, MM/DD/YYYY) *)
Definition year_first (sep a b c e p q r s : ascii) : string :=
  String a (String b (String c (String e (String sep
    (String p (String q (String sep (String r (String s ""))))))))).

Definition year_last (p q r s a b c e : ascii) : string :=
  String p (String q (String "/" (String r (String s (String "/"
    (String a (String b (String c (String e ""))))))))).

(** ** Values that make a step raise *)



(** ** The table that the pipeline returns *)

(** The columns that the pipeline writes *)
Definition written_columns : list string :=
  [ "gender_original"; "gender"; "date_of_birth_original"; "date_of_birth";
    "annual_income"; "credit_history_months"; "savings_balance"; "email_valid";
    "completeness_score"; "completeness_pct"; "ssn_duplicate_flag" ].

(** What holds of every row of a cleaned table *)
Definition cleaned (r : row) : Prop :=
  marked r = false
  ∧ (col "gender" r = VStr "Male" ∨ col "gender" r = VStr "Female" ∨ col "gender" r = NaN)
  ∧ (col "date_of_birth" r = NaT
     ∨ ∃ y m d, col "date_of_birth" r = VDate y m d ∧ 1 <= y ∧ valid_date y m d)
  ∧ (col "annual_income" r = NaN ∨ ∃ z : Z, col "annual_income" r = VNum (inject_Z z))
  ∧ (∀ c, c = "credit_history_months" ∨ c = "savings_balance" →
       col c r = NaN ∨ (∃ q, col c r = VNum q ∧ (0 <= q)%Q) ∨ ∃ b, col c r = VBool b)
  ∧ (∃ b, col "email_valid" r = VBool b)
  ∧ (∃ n : nat, (n <= 12)%nat
       ∧ col "completeness_score" r = VNum (inject_Z (Z.of_nat n))
       ∧ col "completeness_pct" r = VNum (pct_of n))
  ∧ (∃ b, col "ssn_duplicate_flag" r = VBool b).

(** ** Records and their flat dicts *)

Section LoaderVocabulary.

Import Json.

Definition is_dict (v : json) : bool :=
  match v with
  | JObj _ => true
  | _ => false
  end.

Definition is_number (v : json) : bool :=
  match v with
  | JNum _ | JBool _ => true
  | _ => false
  end.

Definition is_str (v : json) : bool :=
  match v with
  | JStr _ => true
  | _ => false
  end.

(** [m.get(k)] *)
Definition field (m : gmap string json) (k : string) : json := default JNull (m !! k).

(** A nested group of a record is usable when it is absent or a dict. *)
Definition group_ok (fields : gmap string json) (k : string) : bool :=
  match fields !! k with
  | None => true
  | Some v => is_dict v
  end.

(** The fields of a nested group, none when the group is absent *)
Definition group (fields : gmap string json) (k : string) : gmap string json :=
  match fields !! k with
  | Some (JObj m) => m
  | _ => ∅
  end.

(** An entry of [spending_behavior] is usable when it is a dict whose
    [amount], if it has one, is a number or a bool, and whose [category],
    if it has one, is a [str]. *)
Definition amount_ok (item : json) : bool :=
  match item with
  | JObj m => match m !! "amount" with None => true | Some x => is_number x end
  | _ => false
  end.

Definition category_ok (item : json) : bool :=
  match item with
  | JObj m => match m !! "category" with None => true | Some x => is_str x end
  | _ => false
  end.

Definition entry_ok (item : json) : bool := amount_ok item && category_ok item.

(** The entries of [spending_behavior], none when it is absent *)
Definition spending_entries (fields : gmap string json) : list json :=
  match fields !! "spending_behavior" with
  | Some (JArr items) => items
  | _ => []
  end.

(** [spending_behavior] is usable when it is absent, a list of usable
    entries, an empty [str] or an empty dict. *)
Definition spending_ok (fields : gmap string json) : bool :=
  match fields !! "spending_behavior" with
  | None => true
  | Some (JArr items) => forallb entry_ok items
  | Some (JStr s) => String.eqb s ""
  | Some (JObj m) => (size m =? 0)%nat
  | Some _ => false
  end.

(** A usable record: a dict whose three groups and whose spending entries
    are usable *)
Definition record_ok (record : json) : bool :=
  match record with
  | JObj fields =>
      group_ok fields "applicant_info" && group_ok fields "financials"
      && spending_ok fields && group_ok fields "decision"
  | _ => false
  end.

(** The amount and the category that an entry contributes *)
Definition amount_of (item : json) : Q :=
  match item with
  | JObj m =>
      match m !! "amount" with
      | Some (JNum q) => q
      | Some (JBool true) => 1
      | _ => 0
      end
  | _ => 0
  end.

Definition category_of (item : json) : string :=
  match item with
  | JObj m =>
      match m !! "category" with
      | Some (JStr s) => s
      | _ => ""
      end
  | _ => ""
  end.

Definition sum_Q (l : list Q) : Q := fold_right Qplus 0%Q l.

(** The accumulator after the entries, as [sum] computes it from the left *)
Definition total_from (acc : Q) (items : list json) : Q :=
  fold_left (fun acc item => (acc + amount_of item)%Q) items acc.

(** The columns of the flat dict, in the order in which they are written *)
Definition columns : list string :=
  [ "app_id"; "full_name"; "email"; "ssn"; "ip_address"; "gender";
    "date_of_birth"; "zip_code"; "annual_income"; "credit_history_months";
    "debt_to_income"; "savings_balance"; "spending_total";
    "spending_categories"; "spending_category_list"; "loan_approved";
    "interest_rate"; "approved_amount"; "rejection_reason";
    "processing_timestamp"; "loan_purpose"; "notes" ].

Definition applicant_fields : list string :=
  [ "full_name"; "email"; "ssn"; "ip_address"; "gender"; "date_of_birth"; "zip_code" ].

Definition financial_fields : list string :=
  [ "annual_income"; "credit_history_months"; "debt_to_income"; "savings_balance" ].

Definition decision_fields : list string :=
  [ "loan_approved"; "interest_rate"; "approved_amount"; "rejection_reason" ].

Definition top_level_fields : list string :=
  [ "processing_timestamp"; "loan_purpose"; "notes" ].

(** The flat dict of a usable record *)
Definition flat_of (fields : gmap string json) : gmap string json :=
  let app_info := group fields "applicant_info" in
  let fin := group fields "financials" in
  let items := spending_entries fields in
  let dec := group fields "decision" in
  <["notes" := field fields "notes"]>
  (<["loan_purpose" := field fields "loan_purpose"]>
  (<["processing_timestamp" := field fields "processing_timestamp"]>
  (<["rejection_reason" := field dec "rejection_reason"]>
  (<["approved_amount" := field dec "approved_amount"]>
  (<["interest_rate" := field dec "interest_rate"]>
  (<["loan_approved" := field dec "loan_approved"]>
  (<["spending_category_list" := JStr (String.concat "|" (List.map category_of items))]>
  (<["spending_categories" := JNum (inject_Z (Z.of_nat (length items)))]>
  (<["spending_total" := JNum (total_from 0 items)]>
  (<["savings_balance" := field fin "savings_balance"]>
  (<["debt_to_income" := field fin "debt_to_income"]>
  (<["credit_history_months" := field fin "credit_history_months"]>
  (<["annual_income" := field fin "annual_income"]>
  (<["zip_code" := field app_info "zip_code"]>
  (<["date_of_birth" := field app_info "date_of_birth"]>
  (<["gender" := field app_info "gender"]>
  (<["ip_address" := field app_info "ip_address"]>
  (<["ssn" := field app_info "ssn"]>
  (<["email" := field app_info "email"]>
  (<["full_name" := field app_info "full_name"]>
  (<["app_id" := field fields "_id"]> ∅))))))))))))))))))))).

(** An application with two spending entries, one of them without amount,
    and without financials *)
Definition sample_fields : gmap string json :=
  {[ "_id" := JStr "A1";
     "applicant_info" := JObj {[ "email" := JStr "a@b.co"; "gender" := JNull ]};
     "spending_behavior" :=
       JArr [ JObj {[ "category" := JStr "food"; "amount" := JNum 20 ]};
              JObj {[ "category" := JStr "rent" ]} ];
     "decision" := JObj {[ "loan_approved" := JBool true ]} ]}.

End LoaderVocabulary.

(** * Properties *)

(** ** Reading a column after an assignment *)

Lemma col_insert_eq (c : string) (v : value) (r : row) : col c (<[c := v]> r) = v.
Proof. unfold col. by rewrite lookup_insert_eq. Qed.

Lemma col_insert_ne (c c' : string) (v : value) (r : row) :
  c ≠ c' → col c' (<[c := v]> r) = col c' r.
Proof. intros Hne. unfold col. by rewrite lookup_insert_ne. Qed.

Lemma col_delete_ne (c c' : string) (r : row) :
  c ≠ c' → col c' (delete c r) = col c' r.
Proof. intros Hne. unfold col. by rewrite lookup_delete_ne. Qed.

Lemma length_assign (c : string) (f : row → value) (df : table) :
  length (assign c f df) = length df.
Proof. unfold assign. apply length_map. Qed.

Lemma map_col_assign_ne (c c' : string) (f : row → value) (df : table) :
  c ≠ c' → List.map (col c') (assign c f df) = List.map (col c') df.
Proof.
  intros Hne. unfold assign. rewrite List.map_map. apply List.map_ext.
  intros r. by apply col_insert_ne.
Qed.

(** ** Date parsing *)

(** C1, on the inputs of the spec's date table and on an input with a part
    that is not an integer: the five listed values parse as the table says,
    but ["13/xx/2020"], whose first part exceeds 12 and which the precedence
    sends to the DD/MM/YYYY reading (and so to no-date), makes [parse_dob],
    and with it [normalize_dates], raise [ValueError]. *)
Theorem parse_dob_date_table_and_uncaught_int :
  parse_dob (VStr "2020-05-01") = Ok (VDate 2020 5 1)
  ∧ parse_dob (VStr "13/05/2020") = Ok (VDate 2020 5 13)
  ∧ parse_dob (VStr "05/13/2020") = Ok (VDate 2020 5 13)
  ∧ parse_dob (VStr "05/04/2020") = Ok (VDate 2020 4 5)
  ∧ parse_dob (VStr "not-a-date") = Ok NaT
  ∧ parse_dob (VStr "13/xx/2020") = Raise ValueError
  ∧ normalize_dates [dob_row "13/xx/2020"] = Raise ValueError.
Proof. repeat split; vm_compute; reflexivity. Qed.

(** ** Coercion failures that are not absorbed *)

(** C2, at its failing inputs: the date parser raises [ValueError] on
    ["ab/cd/2020"] (three parts, the first two no integers) because the two
    [int] conversions stand outside every [try], and the exception ends
    [normalize_dates] and the whole pipeline; [fix_invalid_values] raises
    [TypeError] on text in [credit_history_months] or in [savings_balance],
    because [Series < 0] cannot order text against a number. *)
Theorem coercion_failures_propagate :
  parse_dob (VStr "ab/cd/2020") = Raise ValueError
  ∧ normalize_dates [flat_row (VStr "A1") (VStr "ab/cd/2020") (VNum 12) (VNum 100)]
    = Raise ValueError
  ∧ clean_pipeline [flat_row (VStr "A1") (VStr "ab/cd/2020") (VNum 12) (VNum 100)]
    = Raise ValueError
  ∧ fix_invalid_values [flat_row (VStr "A1") VNone (VStr "unknown") (VNum 100)]
    = Raise TypeError
  ∧ fix_invalid_values [flat_row (VStr "A1") VNone (VNum 12) (VStr "n/a")]
    = Raise TypeError
  ∧ clean_pipeline [flat_row (VStr "A1") (VStr "2020-05-01") (VStr "unknown") (VNum 100)]
    = Raise TypeError.
Proof. repeat split; vm_compute; reflexivity. Qed.

(** ** Email validation *)

Lemma append_cons (c : ascii) (s t : string) : String c s +:+ t = String c (s +:+ t).
Proof. reflexivity. Qed.

Lemma append_nil (t : string) : EmptyString +:+ t = t.
Proof. reflexivity. Qed.

Lemma all_chars_app (p : ascii → bool) (s t : string) :
  all_chars p (s +:+ t) = all_chars p s && all_chars p t.
Proof.
  unfold all_chars. induction s as [|c s IH]; [done|].
  rewrite append_cons. simpl. rewrite IH. by rewrite andb_assoc.
Qed.

Lemma string_app_snoc_inv (s t : string) (c d : ascii) :
  s +:+ String c EmptyString = t +:+ String d EmptyString → s = t ∧ c = d.
Proof.
  revert t. induction s as [|a s IH]; intros [|b t] H;
    rewrite ?append_cons, ?append_nil in H.
  - by inversion H.
  - inversion H as [[Ha Hs]]. destruct t; discriminate.
  - inversion H as [[Ha Hs]]. destruct s; discriminate.
  - inversion H as [[Ha Hs]]. destruct (IH _ Hs) as [-> ->]. done.
Qed.

Lemma string_snoc_cases (s : string) :
  s = EmptyString ∨ ∃ t c, s = t +:+ String c EmptyString.
Proof.
  induction s as [|a s IH]; [by left|right].
  destruct IH as [->|(t & c & ->)].
  - by exists EmptyString, a.
  - by exists (String a t), c.
Qed.

Lemma string_app_assoc (a b c : string) : (a +:+ b) +:+ c = a +:+ (b +:+ c).
Proof.
  induction a as [|x a IH]; [done|].
  rewrite !append_cons. by f_equal.
Qed.

(** A text that ends in a line feed has not the shape of an address: its
    last character would have to be a letter. *)
Lemma email_shape_no_final_LF (s : string) :
  ¬ email_shape (s +:+ String Re.LF EmptyString).
Proof.
  intros (loc & dom & tld & Heq & _ & _ & _ & _ & Htld & Hlen).
  destruct (string_snoc_cases tld) as [->|(t & c & ->)]; [simpl in Hlen; lia|].
  rewrite all_chars_app in Htld. apply andb_true_iff in Htld as [_ Hc].
  replace (loc +:+ "@" +:+ dom +:+ "." +:+ t +:+ String c EmptyString)
    with ((loc +:+ "@" +:+ dom +:+ "." +:+ t) +:+ String c EmptyString) in Heq
    by (by rewrite !string_app_assoc).
  apply string_app_snoc_inv in Heq as [_ <-].
  vm_compute in Hc. discriminate.
Qed.

(** C5, at its failing input: the three listed values are flagged as the
    spec says, but an address followed by one line feed is flagged valid
    although the text as a whole has not the shape of an address; the [$]
    of the pattern also holds just before a final line feed. *)
Theorem is_valid_email_accepts_final_line_feed :
  is_valid_email (VStr "a@b.co") = true
  ∧ is_valid_email (VStr "bad@") = false
  ∧ is_valid_email VNone = false
  ∧ is_valid_email (VStr ("a@b.co" +:+ String Re.LF EmptyString)) = true
  ∧ ¬ email_shape ("a@b.co" +:+ String Re.LF EmptyString)
  ∧ List.map (col "email_valid")
      (validate_emails [ {[ "email" := VStr ("a@b.co" +:+ String Re.LF EmptyString) ]} ])
    = [VBool true].
Proof.
  repeat split; try (vm_compute; reflexivity).
  apply email_shape_no_final_LF.
Qed.

(** ** Gender standardization *)

Lemma standardize_gender_rows (df : table) :
  standardize_gender df
  = List.map
      (fun r => <["gender" := Hash.map_dict gender_map (col "gender" r)]>
                  (<["gender_original" := col "gender" r]> r))
      df.
Proof.
  unfold standardize_gender, assign. rewrite List.map_map.
  apply List.map_ext. intros r. by rewrite col_insert_ne.
Qed.

Lemma map_dict_gender_cases (v : value) :
  Hash.map_dict gender_map v
  = match v with
    | VStr s =>
        if String.eqb s "Male" || String.eqb s "M" then VStr "Male"
        else if String.eqb s "Female" || String.eqb s "F" then VStr "Female"
        else NaN
    | _ => NaN
    end.
Proof.
  destruct v as [|s|q|b|y m d]; try reflexivity.
  unfold Hash.map_dict, gender_map, List.find, Hash.eqb, Hash.as_number, fst, snd.
    rewrite (String.eqb_sym "Male" s), (String.eqb_sym "M" s),
      (String.eqb_sym "Female" s), (String.eqb_sym "F" s), (String.eqb_sym "" s).
    destruct (String.eqb s "Male"), (String.eqb s "M"), (String.eqb s "Female"),
      (String.eqb s "F"), (String.eqb s ""); reflexivity.
Qed.

(** C6: [standardize_gender] keeps every row, copies [gender] into
    [gender_original], leaves the other columns alone, and replaces
    [gender] by exact lookup: ["Male"] and ["M"] give ["Male"], ["Female"]
    and ["F"] give ["Female"], every other value (the empty string, the
    missing marker, lower-case ["male"], a number, ...) gives the missing
    marker. *)
Theorem standardize_gender_exact_lookup (df : table) :
  Forall2
    (fun r r' =>
       col "gender_original" r' = col "gender" r
       ∧ (col "gender" r = VStr "Male" ∨ col "gender" r = VStr "M"
          → col "gender" r' = VStr "Male")
       ∧ (col "gender" r = VStr "Female" ∨ col "gender" r = VStr "F"
          → col "gender" r' = VStr "Female")
       ∧ (col "gender" r ∉ [VStr "Male"; VStr "M"; VStr "Female"; VStr "F"]
          → col "gender" r' = VNone)
       ∧ (∀ c, c ≠ "gender" → c ≠ "gender_original" → r' !! c = r !! c))
    df (standardize_gender df)
  ∧ Hash.map_dict gender_map (VStr "") = VNone
  ∧ Hash.map_dict gender_map VNone = VNone
  ∧ Hash.map_dict gender_map (VStr "male") = VNone
  ∧ Hash.map_dict gender_map (VStr "FEMALE") = VNone
  ∧ Hash.map_dict gender_map (VStr "m") = VNone.
Proof.
  split; [|repeat split; reflexivity].
  rewrite standardize_gender_rows.
  induction df as [|r df IH]; [constructor|].
  simpl. constructor; [|exact IH].
  rewrite col_insert_ne, !col_insert_eq by done.
  rewrite map_dict_gender_cases.
  split; [done|]. split; [|split; [|split]].
  - intros [-> | ->]; reflexivity.
  - intros [-> | ->]; reflexivity.
  - intros Hnot. destruct (col "gender" r) as [|s|q|b|y m d]; try reflexivity.
    destruct (String.eqb_spec s "Male") as [->|_]; [set_solver|].
    destruct (String.eqb_spec s "M") as [->|_]; [set_solver|].
    destruct (String.eqb_spec s "Female") as [->|_]; [set_solver|].
    destruct (String.eqb_spec s "F") as [->|_]; [set_solver|].
    reflexivity.
  - intros c Hg Ho. by rewrite !lookup_insert_ne.
Qed.

(** ** Rounding *)

Section Rounding.
Local Open Scope Q_scope.

Lemma Qred_inject_Z (k : Z) : Qred (inject_Z k) = inject_Z k.
Proof.
  unfold Qred, inject_Z.
  pose proof (Z.ggcd_gcd k 1) as Hg.
  pose proof (Z.ggcd_correct_divisors k 1) as Hd.
  destruct (Z.ggcd k 1) as [g [aa bb]]. simpl in *.
  rewrite Z.gcd_1_r in Hg. subst g. destruct Hd as [Ha Hb].
  rewrite Z.mul_1_l in Ha, Hb. by subst.
Qed.

Lemma Qfloor_unique (q : Q) (z : Z) :
  inject_Z z <= q → q < inject_Z (z + 1) → Qfloor q = z.
Proof.
  intros Hle Hlt.
  pose proof (Qfloor_le q) as Hf1. pose proof (Qlt_floor q) as Hf2.
  assert (Qfloor q < z + 1)%Z as H1.
  { rewrite Zlt_Qlt. eapply Qle_lt_trans; eassumption. }
  assert (z < Qfloor q + 1)%Z as H2.
  { rewrite Zlt_Qlt. eapply Qle_lt_trans; eassumption. }
  lia.
Qed.

#[local] Instance round_half_even_comp : Proper (Qeq ==> eq) Num.round_half_even.
Proof.
  intros p q Hpq. unfold Num.round_half_even.
  rewrite (Qfloor_comp _ _ Hpq).
  assert (2 * (p - inject_Z (Qfloor q)) == 2 * (q - inject_Z (Qfloor q))) as ->
    by (by rewrite Hpq).
  reflexivity.
Qed.

Lemma round_half_even_whole (z : Z) : Num.round_half_even (inject_Z z) = z.
Proof.
  unfold Num.round_half_even. rewrite Qfloor_Z.
  assert (2 * (inject_Z z - inject_Z z) < 1) as Hlt by lra.
  by rewrite (proj1 (Qlt_alt _ _) Hlt).
Qed.

Lemma round_half_even_tie (q : Q) (z : Z) :
  q == inject_Z z + (1 # 2) →
  Num.round_half_even q = if Z.even z then z else (z + 1)%Z.
Proof.
  intros Hq. rewrite Hq. unfold Num.round_half_even.
  assert (Qfloor (inject_Z z + (1 # 2)) = z) as ->.
  { apply Qfloor_unique; [lra|]. rewrite inject_Z_plus. change (inject_Z 1) with 1. lra. }
  assert (2 * (inject_Z z + (1 # 2) - inject_Z z) == 1) as Heq by lra.
  by rewrite (proj1 (Qeq_alt _ _) Heq).
Qed.

Lemma round_half_even_nearest (q : Q) :
  Qabs (q - inject_Z (Num.round_half_even q)) <= 1 # 2.
Proof.
  unfold Num.round_half_even.
  pose proof (Qfloor_le q) as Hf1. pose proof (Qlt_floor q) as Hf2.
  rewrite inject_Z_plus in Hf2. change (inject_Z 1) with 1 in Hf2.
  set (f := Qfloor q) in *.
  apply Qabs_Qle_condition.
  destruct (Qcompare (2 * (q - inject_Z f)) 1) eqn:Hc.
  - pose proof (proj2 (Qeq_alt _ _) Hc).
    destruct (Z.even f); rewrite ?inject_Z_plus; change (inject_Z 1) with 1; split; lra.
  - pose proof (proj2 (Qlt_alt _ _) Hc). split; lra.
  - pose proof (proj2 (Qgt_alt _ _) Hc). rewrite inject_Z_plus.
    change (inject_Z 1) with 1. split; lra.
Qed.

Lemma round_0 (q : Q) : Num.round 0 q = inject_Z (Num.round_half_even q).
Proof.
  unfold Num.round. change (inject_Z (10 ^ 0)) with 1.
  assert (q * 1 == q) as -> by lra.
  etrans; [|apply Qred_inject_Z].
  apply Qred_complete. unfold Qdiv. change (/ 1) with 1. lra.
Qed.

End Rounding.

(** ** Income coercion *)

Lemma fix_income_types_rows (df : table) :
  fix_income_types df
  = List.map
      (fun r =>
         <["annual_income" := round_cell 0 (to_numeric_coerce (col "annual_income" r))]>
           (<["annual_income" := to_numeric_coerce (col "annual_income" r)]> r))
      df.
Proof.
  unfold fix_income_types, assign. rewrite List.map_map.
  apply List.map_ext. intros r. by rewrite col_insert_eq.
Qed.

Lemma income_after_cases (v : value) :
  income_after v
  = match to_numeric_coerce v with
    | VNum q => VNum (inject_Z (Num.round_half_even q))
    | _ => VNone
    end.
Proof.
  unfold income_after.
  destruct v as [|s|q|b|y m d]; simpl; try reflexivity.
  - destruct (Num.float_literal s); simpl; [by rewrite round_0|done].
  - by rewrite round_0.
  - by rewrite round_0.
Qed.


(** C10: in [fix_income_types] an income that lies halfway between two
    whole numbers goes to the even one: 2.5 gives 2, 3.5 gives 4, 0.5 gives
    0, whether the income comes as a number or as text. *)
Theorem fix_income_types_ties_to_even (df : table) :
  List.map (col "annual_income") (fix_income_types df)
  = List.map (fun r => income_after (col "annual_income" r)) df
  ∧ (∀ (q : Q) (z : Z),
       (q == inject_Z z + (1 # 2))%Q →
       income_after (VNum q) = VNum (inject_Z (if Z.even z then z else z + 1)))
  ∧ List.map (col "annual_income")
      (fix_income_types
         [ {[ "annual_income" := VNum (5 # 2) ]};
           {[ "annual_income" := VNum (7 # 2) ]};
           {[ "annual_income" := VNum (1 # 2) ]};
           {[ "annual_income" := VStr "2.5" ]};
           {[ "annual_income" := VStr "3.5" ]};
           {[ "annual_income" := VStr "0.5" ]} ])
    = [VNum 2; VNum 4; VNum 0; VNum 2; VNum 4; VNum 0].
Proof.
  split; [|split; [|vm_compute; reflexivity]].
  - rewrite fix_income_types_rows, List.map_map.
    apply List.map_ext. intros r. by rewrite col_insert_eq.
  - intros q z Hq. rewrite income_after_cases. simpl.
    by rewrite (round_half_even_tie q z Hq).
Qed.

(** ** Completeness scoring *)

Lemma fold_left_count {A} (p : A → bool) (l : list A) (a : Z) :
  fold_left (fun acc x => if p x then acc + 1 else acc) l a
  = a + Z.of_nat (length (List.filter p l)).
Proof.
  revert a. induction l as [|x l IH]; intros a; simpl; [lia|].
  rewrite IH. destruct (p x); simpl; lia.
Qed.

Lemma count_complete_n_present (r : row) : count_complete r = Z.of_nat (n_present r).
Proof.
  unfold count_complete, n_present.
  rewrite (fold_left_count (fun field => present (col field r))). lia.
Qed.

Lemma n_present_le (r : row) : (n_present r <= 12)%nat.
Proof.
  unfold n_present.
  etrans; [apply List.filter_length_le|]. reflexivity.
Qed.

Lemma pct_of_bounds (n : nat) : (n <= 12)%nat → (0 <= pct_of n ∧ pct_of n <= 100)%Q.
Proof.
  intros Hn.
  do 13 (destruct n as [|n]; [vm_compute; split; discriminate|]).
  lia.
Qed.

Lemma round_1_nearest (q : Q) : (Qabs (q - Num.round 1 q) <= 1 # 20)%Q.
Proof.
  unfold Num.round. change (inject_Z (10 ^ 1)) with 10%Q.
  rewrite Qred_correct.
  pose proof (round_half_even_nearest (q * 10)) as H.
  apply Qabs_Qle_condition in H. apply Qabs_Qle_condition.
  set (k := inject_Z (Num.round_half_even (q * 10))) in *.
  unfold Qdiv. change (/ 10)%Q with (1 # 10)%Q. split; lra.
Qed.

Lemma flag_missing_fields_rows (df : table) :
  flag_missing_fields df
  = List.map
      (fun r =>
         <["completeness_pct" := VNum (pct_of (n_present r))]>
           (<["completeness_score" := VNum (inject_Z (Z.of_nat (n_present r)))]> r))
      df.
Proof.
  unfold flag_missing_fields, assign. rewrite List.map_map.
  apply List.map_ext. intros r.
  rewrite col_insert_eq, count_complete_n_present.
  unfold pct_of, round_cell, score_of.
  change (inject_Z (Z.of_nat (length core_fields))) with 12%Q.
  reflexivity.
Qed.

(** C7: [flag_missing_fields] keeps every row and every other column; the
    score of a row is the number of its 12 core fields that are present
    and not the empty string, the percentage is the score divided by 12,
    times 100, rounded to one decimal place, and lies between 0 and 100; a
    row that lacks exactly [email] and [ssn] gets the score 10 and the
    percentage 83.3. *)
Theorem flag_missing_fields_score_and_pct (df : table) :
  core_fields
  = [ "full_name"; "email"; "ssn"; "ip_address"; "gender"; "date_of_birth";
      "zip_code"; "annual_income"; "credit_history_months"; "debt_to_income";
      "savings_balance"; "loan_approved" ]
  ∧ Forall2
      (fun r r' =>
         col "completeness_score" r' = VNum (inject_Z (Z.of_nat (n_present r)))
         ∧ col "completeness_pct" r'
           = VNum (Num.round 1 (inject_Z (Z.of_nat (n_present r)) / 12 * 100))
         ∧ (0 <= pct_of (n_present r) ∧ pct_of (n_present r) <= 100)%Q
         ∧ (lacks_email_and_ssn r →
            col "completeness_score" r' = VNum 10
            ∧ col "completeness_pct" r' = VNum (833 # 10))
         ∧ (∀ c, c ≠ "completeness_score" → c ≠ "completeness_pct" → r' !! c = r !! c))
      df (flag_missing_fields df)
  ∧ (∀ q, (Qabs (q - Num.round 1 q) <= 1 # 20)%Q)
  ∧ List.map (fun r => (col "completeness_score" r, col "completeness_pct" r))
      (flag_missing_fields [applicant_without_email_and_ssn])
    = [(VNum 10, VNum (833 # 10))].
Proof.
  split; [reflexivity|].
  split; [|split; [exact round_1_nearest|vm_compute; reflexivity]].
  rewrite flag_missing_fields_rows.
  induction df as [|r df IH]; [constructor|].
  simpl. constructor; [|exact IH].
  rewrite col_insert_ne, !col_insert_eq by done.
  split; [done|]. split; [done|]. split; [apply pct_of_bounds, n_present_le|].
  split.
  - intros Hlack.
    assert (n_present r = 10%nat) as ->; [|done].
    unfold n_present.
    rewrite (List.filter_ext_in _ _ core_fields Hlack). reflexivity.
  - intros c Hs Hp. by rewrite !lookup_insert_ne.
Qed.

(** ** Equality of cells in the hash tables *)

Lemma hash_eqb_refl (v : value) : Hash.eqb v v = true.
Proof.
  destruct v as [|s|q|b|y m d]; unfold Hash.eqb; simpl.
  - reflexivity.
  - apply String.eqb_refl.
  - apply Qeq_bool_refl.
  - apply Qeq_bool_refl.
  - by rewrite !Z.eqb_refl.
Qed.

Lemma hash_eqb_sym (a b : value) : Hash.eqb a b = Hash.eqb b a.
Proof.
  destruct a as [|s|q|b1|y m d], b as [|s'|q'|b2|y' m' d'];
    unfold Hash.eqb; simpl; try reflexivity.
  - apply String.eqb_sym.
  - apply Qeq_bool_comm.
  - apply Qeq_bool_comm.
  - apply Qeq_bool_comm.
  - apply Qeq_bool_comm.
  - by rewrite (Z.eqb_sym y), (Z.eqb_sym m), (Z.eqb_sym d).
Qed.

Lemma hash_eqb_trans (a b c : value) :
  Hash.eqb a b = true → Hash.eqb b c = true → Hash.eqb a c = true.
Proof.
  unfold Hash.eqb.
  destruct (Hash.as_number a) as [p|] eqn:Ha, (Hash.as_number b) as [q|] eqn:Hb,
    (Hash.as_number c) as [r|] eqn:Hc; try discriminate.
  - apply Qeq_bool_trans.
  - destruct a as [|s1|q1|b1|y1 m1 d1]; try discriminate;
      destruct b as [|s2|q2|b2|y2 m2 d2]; try discriminate;
      destruct c as [|s3|q3|b3|y3 m3 d3]; try discriminate; try done.
    + intros H1%String.eqb_eq H2%String.eqb_eq. subst. apply String.eqb_refl.
    + intros H1 H2.
      apply andb_true_iff in H1 as [[?%Z.eqb_eq ?%Z.eqb_eq]%andb_true_iff ?%Z.eqb_eq].
      apply andb_true_iff in H2 as [[?%Z.eqb_eq ?%Z.eqb_eq]%andb_true_iff ?%Z.eqb_eq].
      subst. by rewrite !Z.eqb_refl.
Qed.

Lemma hash_eqb_false_l (a b c : value) :
  Hash.eqb a b = true → Hash.eqb a c = false → Hash.eqb b c = false.
Proof.
  intros Hab Hac. destruct (Hash.eqb b c) eqn:Hbc; [|done].
  by rewrite (hash_eqb_trans a b c Hab Hbc) in Hac.
Qed.

(** On text the hash tables compare the strings themselves. *)
Lemma hash_eqb_str (s t : string) : Hash.eqb (VStr s) (VStr t) = true ↔ s = t.
Proof. unfold Hash.eqb. simpl. apply String.eqb_eq. Qed.

Lemma hash_eqb_present (a b : value) : Hash.eqb a b = true → present a = present b.
Proof.
  destruct a as [|s|q|b1|y m d], b as [|s'|q'|b2|y' m' d'];
    unfold Hash.eqb; simpl; try discriminate; try reflexivity.
  by intros ->%String.eqb_eq.
Qed.

Lemma isin_true (v : value) (vals : list value) :
  Hash.isin v vals = true ↔ ∃ w, In w vals ∧ Hash.eqb v w = true.
Proof. unfold Hash.isin. apply existsb_exists. Qed.

Lemma isin_eqb_compat (v w : value) (vals : list value) :
  Hash.eqb v w = true → Hash.isin v vals = Hash.isin w vals.
Proof.
  intros Hvw. apply eq_true_iff_eq. rewrite !isin_true.
  split; intros (u & Hin & Hu); exists u; split; try done.
  - apply hash_eqb_trans with v; [by rewrite hash_eqb_sym|done].
  - by apply hash_eqb_trans with w.
Qed.

(** ** Deduplication *)

Lemma filter_none {A} (p : A → bool) (l : list A) :
  Forall (fun x => p x = false) l → List.filter p l = [].
Proof.
  induction 1 as [|x l Hx Hl IH]; simpl; [done|]. by rewrite Hx.
Qed.

Section DropDuplicates.
Variable key : row → value.

Lemma drop_duplicates_sublist (seen : list value) (df : table) :
  sublist (Hash.drop_duplicates key seen df) df.
Proof.
  revert seen. induction df as [|r df IH]; intros seen; simpl; [constructor|].
  destruct (Hash.isin (key r) seen).
  - apply sublist_cons, IH.
  - apply sublist_skip, IH.
Qed.

Lemma drop_duplicates_not_seen (seen : list value) (df : table) :
  Forall (fun r => Hash.isin (key r) seen = false) (Hash.drop_duplicates key seen df).
Proof.
  revert seen. induction df as [|r df IH]; intros seen; simpl; [constructor|].
  destruct (Hash.isin (key r) seen) eqn:Hr; [apply IH|].
  constructor; [done|].
  eapply Forall_impl; [apply (IH (key r :: seen))|].
  intros r' Hr'. simpl in Hr'. by apply orb_false_iff in Hr' as [_ ?].
Qed.

(** No two rows of the result have the same key. *)
Lemma drop_duplicates_distinct (seen : list value) (df : table) :
  ForallOrdPairs (fun r1 r2 => Hash.eqb (key r1) (key r2) = false)
    (Hash.drop_duplicates key seen df).
Proof.
  revert seen. induction df as [|r df IH]; intros seen; simpl; [constructor|].
  destruct (Hash.isin (key r) seen); [apply IH|].
  constructor; [|apply IH].
  eapply Forall_impl; [apply (drop_duplicates_not_seen (key r :: seen))|].
  intros r' Hr'. simpl in Hr'. apply orb_false_iff in Hr' as [Hr' _].
  by rewrite hash_eqb_sym.
Qed.

(** A row is kept exactly when its key is new and no row before it in the
    table has that key: the first occurrence of each key is the one kept. *)
Lemma drop_duplicates_first (seen : list value) (df : table) (r : row) :
  In r (Hash.drop_duplicates key seen df)
  ↔ ∃ pre post, df = pre ++ r :: post
      ∧ Hash.isin (key r) seen = false
      ∧ Forall (fun p => Hash.eqb (key p) (key r) = false) pre.
Proof.
  revert seen. induction df as [|x df IH]; intros seen; simpl.
  { split; [done|]. intros (pre & post & Heq & _). by destruct pre. }
  destruct (Hash.isin (key x) seen) eqn:Hx.
  - rewrite IH. split.
    + intros (pre & post & -> & Hr & Hpre).
      exists (x :: pre), post. repeat split; try done.
      constructor; [|done].
      destruct (Hash.eqb (key x) (key r)) eqn:Hxr; [|done].
      by rewrite (isin_eqb_compat _ _ seen Hxr), Hr in Hx.
    + intros (pre & post & Heq & Hr & Hpre).
      destruct pre as [|p pre]; simpl in Heq; inversion Heq; subst.
      * by rewrite Hr in Hx.
      * inversion Hpre; subst. by exists pre, post.
  - simpl. rewrite IH. split.
    + intros [<- | (pre & post & -> & Hr & Hpre)].
      * by exists [], df.
      * simpl in Hr. apply orb_false_iff in Hr as [Hrx Hr].
        exists (x :: pre), post. repeat split; try done.
        constructor; [by rewrite hash_eqb_sym|done].
    + intros (pre & post & Heq & Hr & Hpre).
      destruct pre as [|p pre]; simpl in Heq; inversion Heq; subst; [by left|].
      right. inversion Hpre; subst.
      exists pre, post. repeat split; try done.
      simpl. apply orb_false_iff. split; [by rewrite hash_eqb_sym|done].
Qed.

(** Every key of a list without equal keys occurs on exactly one row. *)
Lemma distinct_keys_once (df : table) (r : row) :
  ForallOrdPairs (fun r1 r2 => Hash.eqb (key r1) (key r2) = false) df →
  In r df →
  length (List.filter (fun r' => Hash.eqb (key r') (key r)) df) = 1%nat.
Proof.
  induction 1 as [|x df Hx Hdf IH]; intros Hin; [done|].
  simpl. destruct Hin as [-> | Hin].
  - rewrite hash_eqb_refl. simpl. f_equal.
    rewrite filter_none; [done|].
    eapply Forall_impl; [exact Hx|].
    intros r' Hr'. by rewrite hash_eqb_sym.
  - rewrite Forall_forall in Hx.
    rewrite (Hx r (proj2 (list_elem_of_In _ _) Hin)). by apply IH.
Qed.

End DropDuplicates.

Lemma marked_iff (r : row) :
  marked r = true
  ↔ col "notes" r = VStr "DUPLICATE_ENTRY_ERROR" ∨ col "notes" r = VStr "RESUBMISSION".
Proof.
  unfold marked, duplicate_notes. simpl.
  destruct (col "notes" r) as [|s|q|b|y m d];
    try (split; [discriminate|intros [?|?]; discriminate]).
  unfold Hash.eqb. simpl. rewrite orb_false_r, orb_true_iff, !String.eqb_eq.
  split; (intros [H|H]; [left|right]); congruence.
Qed.

Lemma remove_duplicates_phases (df : table) :
  remove_duplicates df = Hash.drop_duplicates (col "app_id") [] (unmarked_rows df).
Proof. reflexivity. Qed.

(** C3 fails as stated: of two rows that share the app_id ["A1"], one
    marked [RESUBMISSION], the claim promises exactly one row in the result.
    When the other row carries a marker too, the first phase removes both
    and no row with app_id ["A1"] is left: neither a non-resubmission row
    nor the first occurrence survives. *)
Lemma remove_duplicates_both_marked_counterexample :
  remove_duplicates
    [ app_row (VStr "A1") (VStr "RESUBMISSION");
      app_row (VStr "A1") (VStr "DUPLICATE_ENTRY_ERROR") ] = []
  ∧ rows_with_app_id (VStr "A1")
      (remove_duplicates
         [ app_row (VStr "A1") (VStr "RESUBMISSION");
           app_row (VStr "A1") (VStr "DUPLICATE_ENTRY_ERROR") ]) ≠ 1%nat
  ∧ rows_with_app_id (VStr "A1")
      (remove_duplicates
         [ app_row (VStr "A1") (VStr "RESUBMISSION");
           app_row (VStr "A1") (VStr "RESUBMISSION") ]) ≠ 1%nat.
Proof. repeat split; vm_compute; discriminate. Qed.

(** C3 as amended: [remove_duplicates] first removes every row whose
    [notes] is one of the two markers; of the rows that are left it keeps,
    for each app_id, the first one in table order; the kept rows stand in
    their table order; every app_id of the result is on exactly one row of
    it.  For two rows that share an app_id: the first is kept when it is
    not marked, the second when only the first is marked, and none when
    both are marked. *)
Theorem remove_duplicates_two_phase_policy (df : table) :
  (∀ r, In r (unmarked_rows df)
        ↔ In r df ∧ col "notes" r ≠ VStr "DUPLICATE_ENTRY_ERROR"
          ∧ col "notes" r ≠ VStr "RESUBMISSION")
  ∧ sublist (unmarked_rows df) df
  ∧ (∀ r, In r (remove_duplicates df)
          ↔ ∃ pre post, unmarked_rows df = (pre ++ r :: post)%list
              ∧ Forall (fun p => Hash.eqb (col "app_id" p) (col "app_id" r) = false) pre)
  ∧ sublist (remove_duplicates df) df
  ∧ (∀ r, In r (remove_duplicates df) →
          rows_with_app_id (col "app_id" r) (remove_duplicates df) = 1%nat)
  ∧ (∀ r1 r2, Hash.eqb (col "app_id" r1) (col "app_id" r2) = true →
       remove_duplicates [r1; r2]
       = if marked r1 then (if marked r2 then [] else [r2]) else [r1]).
Proof.
  assert (sublist (unmarked_rows df) df) as Hsub.
  { unfold unmarked_rows. induction df as [|r df IH]; simpl; [constructor|].
    destruct (negb (marked r)); [by apply sublist_skip|by apply sublist_cons]. }
  split; [|split; [exact Hsub|split; [|split; [|split]]]].
  - intros r. unfold unmarked_rows. rewrite filter_In, negb_true_iff.
    assert (marked r = false ↔ col "notes" r ≠ VStr "DUPLICATE_ENTRY_ERROR"
                              ∧ col "notes" r ≠ VStr "RESUBMISSION") as ->; [|done].
    pose proof (marked_iff r) as Hm. destruct (marked r).
    + split; [done|]. intros [H1 H2]. destruct (proj1 Hm eq_refl); done.
    + split; [|done]. intros _.
      split; intros Heq; (assert (false = true) by (apply Hm; auto)); done.
  - intros r. rewrite remove_duplicates_phases, drop_duplicates_first.
    split.
    + intros (pre & post & Heq & _ & Hpre). by exists pre, post.
    + intros (pre & post & Heq & Hpre). by exists pre, post.
  - rewrite remove_duplicates_phases.
    etrans; [apply drop_duplicates_sublist|exact Hsub].
  - intros r Hin. unfold rows_with_app_id.
    apply (distinct_keys_once (col "app_id")); [|done].
    rewrite remove_duplicates_phases. apply drop_duplicates_distinct.
  - intros r1 r2 Heq. rewrite remove_duplicates_phases. unfold unmarked_rows. simpl.
    destruct (marked r1), (marked r2); simpl; try reflexivity.
    by rewrite orb_false_r, hash_eqb_sym, Heq.
Qed.

(** ** Counting values *)

Lemma bump_count (v w : value) (counts : list (value * nat)) :
  count_in v (Hash.bump w counts)
  = (count_in v counts + if Hash.eqb w v then 1 else 0)%nat.
Proof.
  unfold count_in.
  induction counts as [|[k n] counts IH]; simpl.
  - destruct (Hash.eqb w v); reflexivity.
  - destruct (Hash.eqb k w) eqn:Hkw; simpl.
    + destruct (Hash.eqb k v) eqn:Hkv; simpl.
      * assert (Hash.eqb w v = true) as ->; [|lia].
        apply hash_eqb_trans with k; [by rewrite hash_eqb_sym|done].
      * rewrite (hash_eqb_false_l k w v Hkw Hkv). lia.
    + destruct (Hash.eqb k v) eqn:Hkv; simpl; [|exact IH].
      assert (Hash.eqb w v = false) as ->; [|lia].
      destruct (Hash.eqb w v) eqn:Hwv; [|done].
      rewrite <- Hkw. symmetry.
      apply hash_eqb_trans with v; [done|by rewrite hash_eqb_sym].
Qed.

Lemma bump_keys (w : value) (counts : list (value * nat)) (k : value) :
  Hash.eqb k w = false →
  Forall (fun kn' => Hash.eqb k (fst kn') = false) counts →
  Forall (fun kn' => Hash.eqb k (fst kn') = false) (Hash.bump w counts).
Proof.
  intros Hkw. induction 1 as [|[k' n'] counts Hk' Hcounts IH]; simpl.
  - by repeat constructor.
  - destruct (Hash.eqb k' w); constructor; done.
Qed.

Lemma bump_distinct (w : value) (counts : list (value * nat)) :
  keys_distinct counts → keys_distinct (Hash.bump w counts).
Proof.
  induction counts as [|[k n] counts IH]; simpl; [by repeat constructor|].
  intros [Hk Hd]. destruct (Hash.eqb k w) eqn:Hkw; simpl; [done|].
  split; [by apply bump_keys|by apply IH].
Qed.

Lemma fold_bump (v : value) (l : list value) (counts : list (value * nat)) :
  count_in v (fold_left (fun counts w => Hash.bump w counts) l counts)
  = (count_in v counts + count_eq v l)%nat.
Proof.
  revert counts. unfold count_eq.
  induction l as [|w l IH]; intros counts; simpl; [lia|].
  rewrite IH, bump_count. destruct (Hash.eqb w v); simpl; lia.
Qed.

Lemma fold_bump_distinct (l : list value) (counts : list (value * nat)) :
  keys_distinct counts →
  keys_distinct (fold_left (fun counts w => Hash.bump w counts) l counts).
Proof.
  revert counts. induction l as [|w l IH]; intros counts Hd; simpl; [done|].
  by apply IH, bump_distinct.
Qed.

Lemma value_counts_count (v : value) (l : list value) :
  count_in v (Hash.value_counts l) = count_eq v l.
Proof. unfold Hash.value_counts. by rewrite fold_bump. Qed.

Lemma value_counts_distinct (l : list value) : keys_distinct (Hash.value_counts l).
Proof. unfold Hash.value_counts. by apply fold_bump_distinct. Qed.

Lemma isin_repeated (v : value) (counts : list (value * nat)) :
  keys_distinct counts →
  Hash.isin v (repeated counts) = (1 <? count_in v counts)%nat.
Proof.
  unfold repeated, count_in.
  induction counts as [|[k n] counts IH]; simpl; [done|].
  intros [Hk Hd]. destruct (Hash.eqb k v) eqn:Hkv; simpl.
  - destruct (1 <? n)%nat eqn:Hn; simpl.
    + by rewrite hash_eqb_sym, Hkv.
    + apply not_true_is_false. intros (w & Hw & Hvw)%isin_true.
      apply in_map_iff in Hw as ([k' n'] & <- & Hin).
      apply filter_In in Hin as [Hin _].
      rewrite Forall_forall in Hk.
      specialize (Hk (k', n') (proj2 (list_elem_of_In _ _) Hin)). simpl in *.
      by rewrite (hash_eqb_trans k v k' Hkv Hvw) in Hk.
  - destruct (1 <? n)%nat; simpl; [|by apply IH].
    rewrite hash_eqb_sym, Hkv. by apply IH.
Qed.

(** ** SSN duplicate flag *)

Lemma present_iff (v : value) : present v = true ↔ v ≠ VNone ∧ v ≠ VStr "".
Proof.
  destruct v as [|s|q|b|y m d]; unfold present; simpl;
    try (split; [done|intros [? ?]; done]).
  rewrite negb_true_iff, String.eqb_neq. split; [|intros [_ H] ->; done].
  intros H. split; [done|]. by intros [= ->].
Qed.

Lemma count_eq_valid_ssn (v : value) (df : table) :
  count_eq v (List.map (col "ssn") (List.filter (fun r => present (col "ssn" r)) df))
  = ssn_occurrences v df.
Proof.
  unfold count_eq, ssn_occurrences.
  induction df as [|r df IH]; simpl; [done|].
  destruct (present (col "ssn" r)); simpl; [|exact IH].
  destruct (Hash.eqb (col "ssn" r) v); simpl; by rewrite IH.
Qed.

Lemma ssn_occurrences_not_present (v : value) (df : table) :
  present v = false → ssn_occurrences v df = 0%nat.
Proof.
  intros Hv. unfold ssn_occurrences. rewrite filter_none; [done|].
  apply Forall_forall. intros r _.
  destruct (present (col "ssn" r)) eqn:Hp; [|done]. simpl.
  destruct (Hash.eqb (col "ssn" r) v) eqn:He; [|done].
  apply hash_eqb_present in He. congruence.
Qed.

Lemma flag_ssn_duplicates_unfold (df : table) :
  flag_ssn_duplicates df
  = assign "ssn_duplicate_flag"
      (fun r =>
         VBool
           (Hash.isin (col "ssn" r)
              (repeated
                 (Hash.value_counts
                    (List.map (col "ssn")
                       (List.filter (fun r => present (col "ssn" r)) df))))))
      df.
Proof. reflexivity. Qed.

Lemma flag_ssn_duplicates_rows (df : table) :
  flag_ssn_duplicates df
  = List.map
      (fun r =>
         <["ssn_duplicate_flag" :=
             VBool (present (col "ssn" r) && (1 <? ssn_occurrences (col "ssn" r) df)%nat)]> r)
      df.
Proof.
  rewrite flag_ssn_duplicates_unfold. unfold assign.
  apply List.map_ext. intros r.
  rewrite isin_repeated by apply value_counts_distinct.
  rewrite value_counts_count, count_eq_valid_ssn.
  destruct (present (col "ssn" r)) eqn:Hp; [done|].
  by rewrite ssn_occurrences_not_present.
Qed.

Lemma Forall2_map_insert (c : string) (f : row → value) (P : row → row → Prop) (df : table) :
  (∀ r, P r (<[c := f r]> r)) →
  Forall2 P df (List.map (fun r => <[c := f r]> r) df).
Proof.
  intros HP. induction df as [|r df IH]; simpl; constructor; auto.
Qed.

(** C9: [flag_ssn_duplicates] keeps every row and every other column; the
    flag of a row is true exactly when its SSN is present, is not the empty
    string, and stands on more than one of the rows whose SSN is present
    and not empty; a row without SSN is flagged false.  For the SSNs
    ["111"], ["111"], ["222"] the flags are true, true, false. *)
Theorem flag_ssn_duplicates_marks_repeated (df : table) :
  Forall2
    (fun r r' =>
       col "ssn_duplicate_flag" r'
       = VBool (present (col "ssn" r) && (1 <? ssn_occurrences (col "ssn" r) df)%nat)
       ∧ (col "ssn" r = VNone ∨ col "ssn" r = VStr "" →
          col "ssn_duplicate_flag" r' = VBool false)
       ∧ (∀ c, c ≠ "ssn_duplicate_flag" → r' !! c = r !! c))
    df (flag_ssn_duplicates df)
  ∧ (∀ v, present v = true ↔ v ≠ VNone ∧ v ≠ VStr "")
  ∧ (∀ s t, Hash.eqb (VStr s) (VStr t) = true ↔ s = t)
  ∧ List.map (col "ssn_duplicate_flag")
      (flag_ssn_duplicates
         [ {[ "ssn" := VStr "111" ]}; {[ "ssn" := VStr "111" ]}; {[ "ssn" := VStr "222" ]} ])
    = [VBool true; VBool true; VBool false].
Proof.
  split; [|split; [exact present_iff|split; [exact hash_eqb_str|vm_compute; reflexivity]]].
  rewrite flag_ssn_duplicates_rows.
  apply Forall2_map_insert. intros r.
  rewrite col_insert_eq. split; [done|]. split.
  - intros [-> | ->]; reflexivity.
  - intros c Hc. by rewrite lookup_insert_ne.
Qed.

(** ** What the date step returns *)

Lemma to_datetime_shape (s : string) (fmt : list Pandas.directive) (v : value) :
  except_NaT (Pandas.to_datetime s fmt) = Ok v →
  v = VNone ∨ ∃ y m d, v = VDate y m d.
Proof.
  unfold Pandas.to_datetime, except_NaT.
  repeat case_match; intros; simplify_eq; eauto 6.
Qed.

Lemma parse_dob_shape (val v : value) :
  parse_dob val = Ok v → v = VNone ∨ ∃ y m d, v = VDate y m d.
Proof.
  unfold parse_dob, mbind, result_bind.
  repeat case_match; try discriminate; try (intros [= <-]; by left);
    try (by apply to_datetime_shape).
Qed.

Lemma py_str_timestamp (y m d : Z) :
  py_str (VDate y m d)
  = Some
      (timestamp_text
         (Py.digit_char (y / 100 / 10 mod 10)) (Py.digit_char (y / 100 mod 10))
         (Py.digit_char (y / 10 mod 10)) (Py.digit_char (y mod 10))
         (Py.digit_char (m / 10 mod 10)) (Py.digit_char (m mod 10))
         (Py.digit_char (d / 10 mod 10)) (Py.digit_char (d mod 10))).
Proof. reflexivity. Qed.

Lemma digit_char_not_space (n : Z) : Py.is_space (Py.digit_char (n mod 10)) = false.
Proof.
  pose proof (Z.mod_pos_bound n 10 eq_refl) as Hk.
  generalize dependent (n mod 10). intros k Hk.
  assert (k = 0 ∨ k = 1 ∨ k = 2 ∨ k = 3 ∨ k = 4 ∨ k = 5 ∨ k = 6 ∨ k = 7 ∨ k = 8 ∨ k = 9)
    as Hcases by lia.
  repeat (destruct Hcases as [-> | Hcases]; [reflexivity|]).
  subst. reflexivity.
Qed.

(** A text longer than that leaves unconverted data: the strict match
    fails. *)
Lemma strptime_too_long (fmt : list Pandas.directive) (s : string) (y m d : Z) :
  (max_length fmt < String.length s)%nat → Pandas.strptime fmt s y m d = None.
Proof.
  revert s y m d.
  induction fmt as [|dir fmt IH]; intros s y m d Hlen.
  - destruct s; [simpl in Hlen; lia|reflexivity].
  - destruct dir; simpl in Hlen |- *.
    + destruct s as [|a [|b [|c [|e s]]]]; try reflexivity.
      case_match; [|reflexivity]. apply IH. simpl in Hlen. lia.
    + destruct s as [|a [|b s]]; try reflexivity; simpl in Hlen.
      * case_match; [|reflexivity]. apply IH. simpl. lia.
      * unfold Pandas.orelse.
        rewrite (IH s) by lia. rewrite (IH (String b s)) by (simpl; lia).
        by repeat case_match.
    + destruct s as [|a [|b s]]; try reflexivity; simpl in Hlen.
      * case_match; [|reflexivity]. apply IH. simpl. lia.
      * unfold Pandas.orelse.
        rewrite (IH s) by lia. rewrite (IH (String b s)) by (simpl; lia).
        by repeat case_match.
    + destruct s as [|a s]; [reflexivity|].
      case_match; [|reflexivity]. apply IH. simpl in Hlen. lia.
Qed.

(** The time of day that follows the date is left over, whatever the
    digits are: the strict format refuses the text of a timestamp. *)
Lemma strptime_timestamp (a b c e f g h i : ascii) :
  Pandas.strptime Pandas.Ymd_dash (timestamp_text a b c e f g h i) 0 0 0 = None.
Proof. apply strptime_too_long. simpl. lia. Qed.

Lemma strip_timestamp (a b c e f g h i : ascii) :
  Py.is_space a = false →
  Py.strip (timestamp_text a b c e f g h i) = timestamp_text a b c e f g h i.
Proof.
  intros Ha. unfold Py.strip, timestamp_text. cbn. rewrite Ha. reflexivity.
Qed.

Lemma contains_dash_timestamp (a b c e f g h i : ascii) :
  Py.contains "-" (timestamp_text a b c e f g h i) = true.
Proof. unfold timestamp_text. cbn. by rewrite !orb_true_r. Qed.

(** A date that the first run has parsed does not survive a second one. *)
Lemma parse_dob_timestamp (y m d : Z) : parse_dob (VDate y m d) = Ok NaT.
Proof.
  unfold parse_dob. cbn [Pandas.isna eq_str orb].
  rewrite py_str_timestamp, strip_timestamp by apply digit_char_not_space.
  rewrite contains_dash_timestamp.
  unfold Pandas.to_datetime. rewrite strptime_timestamp.
  reflexivity.
Qed.

(** ** The pipeline, row by row *)

Lemma mapM_result_total {A B} (f : A → result B) (g : A → B) (l : list A) (l' : list B) :
  (∀ x y, f x = Ok y → y = g x) →
  mapM_result f l = Ok l'
  ↔ Forall (fun x => ∃ y, f x = Ok y) l ∧ l' = List.map g l.
Proof.
  intros Hfg. revert l'. induction l as [|x l IH]; intros l'; simpl.
  - split; [intros [= <-]; by split|intros [_ ->]; done].
  - unfold mbind, result_bind.
    destruct (f x) as [y|e] eqn:Hx.
    + destruct (mapM_result f l) as [ys|e] eqn:Hl.
      * destruct (proj1 (IH ys) eq_refl) as [Hall ->].
        rewrite (Hfg x y Hx). split.
        -- intros [= <-]. split; [constructor; eauto|done].
        -- by intros [_ ->].
      * split; [done|]. intros [Hall ->].
        inversion Hall as [|? ? _ Hall']; subst.
        assert (Raise e = Ok (List.map g l)) as Habs; [|done].
        apply IH. by split.
    + split; [done|]. intros [Hall _].
      inversion Hall as [|? ? [y Hy] _]; subst. congruence.
Qed.

Lemma col_nonneg_step_ne (c c' : string) (r : row) :
  c ≠ c' → col c' (nonneg_step c r) = col c' r.
Proof.
  intros Hne. unfold nonneg_step.
  destruct (lt_zero (col c r)) as [[|]|]; [by apply col_insert_ne|done|done].
Qed.

Lemma col_nonneg_step_eq (c : string) (r : row) :
  col c (nonneg_step c r) = nonneg (col c r).
Proof.
  unfold nonneg_step, nonneg.
  destruct (lt_zero (col c r)) as [[|]|]; [by apply col_insert_eq|done|done].
Qed.

Lemma normalize_dates_Ok (df df' : table) :
  normalize_dates df = Ok df'
  ↔ Forall (fun r => ∃ v, parse_dob (col "date_of_birth" r) = Ok v) df
    ∧ df' = List.map dates_step df.
Proof.
  unfold normalize_dates, apply_col, assign.
  rewrite (mapM_result_total _
             (fun r => <["date_of_birth" := dob_after (col "date_of_birth" r)]> r)).
  - rewrite List.Forall_map, List.map_map. split.
    + intros [Hall ->]. split;
        [|apply List.map_ext; intros r; unfold dates_step; by rewrite col_insert_ne].
      eapply Forall_impl; [exact Hall|]. intros r [y Hy]. simpl in Hy.
      rewrite col_insert_ne in Hy by done. unfold mbind, result_bind in Hy.
      destruct (parse_dob (col "date_of_birth" r)); [eauto|done].
    + intros [Hall ->]. split.
      * eapply Forall_impl; [exact Hall|]. intros r [v Hv]. simpl.
        rewrite col_insert_ne by done. rewrite Hv. simpl. eauto.
      * apply List.map_ext. intros r. unfold dates_step.
        by rewrite col_insert_ne.
  - intros r y. unfold mbind, result_bind, dob_after.
    destruct (parse_dob (col "date_of_birth" r)); [|done]. by intros [= <-].
Qed.

Lemma set_where_nonneg (c : string) (df : table) (neg : list bool) :
  Forall2 (fun r b => lt_zero (col c r) = Ok b) df neg →
  set_where neg c NaN df = List.map (nonneg_step c) df.
Proof.
  induction 1 as [|r b df neg Hb _ IH]; [done|].
  simpl. rewrite IH. unfold nonneg_step. rewrite Hb. by destruct b.
Qed.

Lemma no_negative_nonneg (c : string) (df : table) (neg : list bool) :
  Forall2 (fun r b => lt_zero (col c r) = Ok b) df neg →
  List.filter id neg = [] →
  List.map (nonneg_step c) df = df.
Proof.
  induction 1 as [|r b df neg Hb _ IH]; [done|].
  simpl. destruct b; [done|]. intros Hnil.
  rewrite IH by done. unfold nonneg_step. by rewrite Hb.
Qed.

Lemma mapM_result_Forall2 {A B} (f : A → result B) (l : list A) (l' : list B) :
  mapM_result f l = Ok l' → Forall2 (fun x y => f x = Ok y) l l'.
Proof.
  revert l'. induction l as [|x l IH]; intros l'; simpl.
  - intros [= <-]. constructor.
  - unfold mbind, result_bind.
    destruct (f x) as [y|] eqn:Hx; [|done].
    destruct (mapM_result f l) as [ys|]; [|done].
    intros [= <-]. constructor; auto.
Qed.

Lemma mapM_result_Ok_exists {A B} (f : A → result B) (l : list A) :
  Forall (fun x => ∃ y, f x = Ok y) l → ∃ l', mapM_result f l = Ok l'.
Proof.
  induction 1 as [|x l [y Hy] _ [l' Hl']]; simpl; [eauto|].
  unfold mbind, result_bind. rewrite Hy, Hl'. eauto.
Qed.

Lemma set_negative_to_nan_Ok (c : string) (df df' : table) :
  set_negative_to_nan c df = Ok df'
  ↔ Forall (fun r => ∃ b, lt_zero (col c r) = Ok b) df
    ∧ df' = List.map (nonneg_step c) df.
Proof.
  unfold set_negative_to_nan, mbind, result_bind.
  destruct (mapM_result (fun r => lt_zero (col c r)) df) as [neg|e] eqn:Hneg.
  - pose proof (mapM_result_Forall2 _ _ _ Hneg) as H2.
    assert (Forall (fun r => ∃ b, lt_zero (col c r) = Ok b) df) as Hall.
    { clear Hneg. induction H2; constructor; eauto. }
    assert ((if (0 <? length (List.filter id neg))%nat
             then Ok (set_where neg c NaN df) else Ok df)
            = Ok (List.map (nonneg_step c) df)) as ->.
    { destruct (List.filter id neg) eqn:Hf; simpl.
      - by rewrite (no_negative_nonneg c df neg H2 Hf).
      - by rewrite (set_where_nonneg c df neg H2). }
    split; [intros [= <-]; by split|by intros [_ ->]].
  - split; [done|]. intros [Hall _].
    destruct (mapM_result_Ok_exists _ _ Hall) as [l' Hl']. congruence.
Qed.

Lemma fix_invalid_values_Ok (df df' : table) :
  fix_invalid_values df = Ok df'
  ↔ Forall (fun r => (∃ b, lt_zero (col "credit_history_months" r) = Ok b)
                     ∧ (∃ b, lt_zero (col "savings_balance" r) = Ok b)) df
    ∧ df' = List.map (fun r => nonneg_step "savings_balance"
                                 (nonneg_step "credit_history_months" r)) df.
Proof.
  unfold fix_invalid_values, mbind, result_bind.
  destruct (set_negative_to_nan "credit_history_months" df) as [df1|e] eqn:H1.
  - apply set_negative_to_nan_Ok in H1 as [Hall1 ->].
    rewrite set_negative_to_nan_Ok, List.Forall_map, List.map_map.
    split.
    + intros [Hall2 ->]. split; [|done].
      apply Forall_forall. intros r Hr. rewrite Forall_forall in Hall1, Hall2.
      split; [by apply Hall1|].
      specialize (Hall2 r Hr). simpl in Hall2.
      by rewrite col_nonneg_step_ne in Hall2.
    + intros [Hall ->]. split; [|done].
      eapply Forall_impl; [exact Hall|]. intros r [_ H2]. simpl.
      by rewrite col_nonneg_step_ne.
  - split; [done|]. intros [Hall _].
    assert (Raise e = Ok (List.map (nonneg_step "credit_history_months") df)) as Habs; [|done].
    rewrite <- H1. apply set_negative_to_nan_Ok. split; [|done].
    eapply Forall_impl; [exact Hall|]. by intros r [? _].
Qed.

Lemma clean_pipeline_steps (df t1 : table) :
  clean_pipeline df = Ok t1
  ↔ ∃ t v,
      normalize_dates (standardize_gender (remove_duplicates df)) = Ok t
      ∧ fix_invalid_values (fix_income_types t) = Ok v
      ∧ t1 = flag_ssn_duplicates (flag_missing_fields (validate_emails v)).
Proof.
  unfold clean_pipeline, mbind, result_bind.
  destruct (normalize_dates (standardize_gender (remove_duplicates df))) as [t|e].
  - destruct (fix_invalid_values (fix_income_types t)) as [v|e] eqn:Hv.
    + split; [intros [= <-]; eauto|].
      intros (t' & v' & Ht' & Hv' & ->). congruence.
    + split; [done|]. intros (t' & v' & Ht' & Hv' & _). congruence.
  - split; [done|]. intros (t' & v' & ? & _). done.
Qed.

Lemma row_ok_steps (r : row) :
  row_ok r
  ↔ (∃ v, parse_dob (col "date_of_birth" (gender_step r)) = Ok v)
    ∧ (∃ b, lt_zero (col "credit_history_months"
                       (income_step (dates_step (gender_step r)))) = Ok b)
    ∧ (∃ b, lt_zero (col "savings_balance"
                       (income_step (dates_step (gender_step r)))) = Ok b).
Proof.
  unfold row_ok, income_step, dates_step, gender_step.
  by rewrite !col_insert_ne by done.
Qed.

(** X4: the pipeline returns a table exactly when no row that is left
    after deduplication makes the date step or the invalid-value step
    raise; the table is then the deduplicated rows, each taken through
    gender standardization, date normalization, income coercion,
    invalid-value correction, email validation and completeness scoring in
    that order, with the SSN flag computed last over the whole table. *)
Lemma clean_pipeline_Ok (df t1 : table) :
  clean_pipeline df = Ok t1
  ↔ Forall row_ok (remove_duplicates df)
    ∧ t1 = flag_ssn_duplicates (List.map clean_row (remove_duplicates df)).
Proof.
  rewrite clean_pipeline_steps.
  setoid_rewrite normalize_dates_Ok.
  setoid_rewrite fix_invalid_values_Ok.
  rewrite standardize_gender_rows. fold gender_step.
  generalize (remove_duplicates df). intros d.
  assert (∀ t, flag_missing_fields
                 (validate_emails
                    (List.map (fun r => nonneg_step "savings_balance"
                                          (nonneg_step "credit_history_months" r))
                       (fix_income_types (List.map dates_step (List.map gender_step t)))))
               = List.map clean_row t) as Hrows.
  { intros t. rewrite flag_missing_fields_rows, fix_income_types_rows.
    unfold validate_emails, assign. rewrite !List.map_map. reflexivity. }
  split.
  - intros (t & v & [Hd ->] & [Hv ->] & ->). rewrite Hrows. split; [|done].
    rewrite fix_income_types_rows, !List.Forall_map in Hv.
    rewrite List.Forall_map in Hd.
    apply Forall_forall. intros r Hr. rewrite Forall_forall in Hd, Hv.
    apply row_ok_steps. specialize (Hd r Hr). specialize (Hv r Hr).
    fold (income_step (dates_step (gender_step r))) in Hv. tauto.
  - intros [Hok ->]. eexists _, _. rewrite <- Hrows.
    split; [split; [|reflexivity]|split; [split; [|reflexivity]|reflexivity]].
    + rewrite List.Forall_map. eapply Forall_impl; [exact Hok|].
      intros r Hr%row_ok_steps. tauto.
    + rewrite fix_income_types_rows, !List.Forall_map.
      eapply Forall_impl; [exact Hok|].
      intros r Hr%row_ok_steps. fold (income_step (dates_step (gender_step r))). tauto.
Qed.

(** ** Cleaning a cleaned value again *)

Lemma map_dict_gender_idem (v : value) :
  Hash.map_dict gender_map (Hash.map_dict gender_map v) = Hash.map_dict gender_map v.
Proof.
  rewrite (map_dict_gender_cases v).
  destruct v as [|s|q|b|y m d]; try reflexivity.
  destruct (String.eqb s "Male" || String.eqb s "M"); [reflexivity|].
  destruct (String.eqb s "Female" || String.eqb s "F"); reflexivity.
Qed.

Lemma income_after_idem (v : value) : income_after (income_after v) = income_after v.
Proof.
  rewrite (income_after_cases v).
  destruct (to_numeric_coerce v) as [|s|q|b|y m d]; try reflexivity.
  rewrite income_after_cases. simpl. by rewrite round_half_even_whole.
Qed.

Lemma nonneg_idem (v : value) : nonneg (nonneg v) = nonneg v.
Proof.
  unfold nonneg. destruct (lt_zero v) as [[|]|e] eqn:Hv; [reflexivity| |];
    by rewrite Hv.
Qed.

Lemma lt_zero_nonneg (v : value) :
  (∃ b, lt_zero v = Ok b) → lt_zero (nonneg v) = Ok false.
Proof.
  intros [b Hb]. unfold nonneg. rewrite Hb. by destruct b.
Qed.

Lemma dob_after_shape (v : value) :
  dob_after v = VNone ∨ ∃ y m d, dob_after v = VDate y m d.
Proof.
  unfold dob_after. destruct (parse_dob v) as [d|e] eqn:Hv; [|by left].
  by apply parse_dob_shape in Hv.
Qed.

Lemma parse_dob_dob_after (v : value) : parse_dob (dob_after v) = Ok NaT.
Proof.
  destruct (dob_after_shape v) as [-> | (y & m & d & ->)];
    [reflexivity|apply parse_dob_timestamp].
Qed.

Lemma dob_after_idem (v : value) : dob_after (dob_after v) = NaT.
Proof. unfold dob_after at 1. by rewrite parse_dob_dob_after. Qed.

(** ** Running the pipeline on its own output *)

(** The rows that deduplication returns carry no marker and no app_id
    twice; on such a table deduplication changes nothing. *)
Lemma remove_duplicates_unmarked (df : table) :
  Forall (fun r => marked r = false) (remove_duplicates df).
Proof.
  apply Forall_forall. intros r Hr%list_elem_of_In.
  assert (In r (unmarked_rows df)) as Hin.
  { rewrite remove_duplicates_phases in Hr.
    apply drop_duplicates_first in Hr as (pre & post & -> & _).
    apply in_elt. }
  unfold unmarked_rows in Hin. apply filter_In in Hin as [_ Hm].
  by apply negb_true_iff.
Qed.

Lemma drop_duplicates_id (key : row → value) (seen : list value) (df : table) :
  Forall (fun r => Hash.isin (key r) seen = false) df →
  ForallOrdPairs (fun r1 r2 => Hash.eqb (key r1) (key r2) = false) df →
  Hash.drop_duplicates key seen df = df.
Proof.
  intros Hseen Hpairs. revert seen Hseen.
  induction Hpairs as [|r df Hr Hdf IH]; intros seen Hseen; [done|].
  inversion Hseen as [|? ? Hr' Hseen']; subst.
  simpl. rewrite Hr'. f_equal. apply IH.
  apply Forall_forall. intros r' Hin.
  rewrite Forall_forall in Hr, Hseen'.
  simpl. rewrite (Hseen' r' Hin), orb_false_r.
  rewrite hash_eqb_sym. by apply Hr.
Qed.

Lemma remove_duplicates_id (df : table) :
  Forall (fun r => marked r = false) df →
  ForallOrdPairs (fun r1 r2 => Hash.eqb (col "app_id" r1) (col "app_id" r2) = false) df →
  remove_duplicates df = df.
Proof.
  intros Hm Hp. rewrite remove_duplicates_phases.
  assert (unmarked_rows df = df) as ->.
  { unfold unmarked_rows. clear Hp.
    induction Hm as [|r df Hr _ IH]; [done|]. simpl. by rewrite Hr, IH. }
  apply drop_duplicates_id; [|done].
  apply Forall_forall. by intros r _.
Qed.

(** X5: deduplication is idempotent. *)
Theorem remove_duplicates_idempotent (df : table) :
  remove_duplicates (remove_duplicates df) = remove_duplicates df.
Proof.
  apply remove_duplicates_id; [apply remove_duplicates_unmarked|].
  rewrite remove_duplicates_phases. apply drop_duplicates_distinct.
Qed.

Lemma length_filter_map {A B} (p : B → bool) (f : A → B) (l : list A) :
  length (List.filter (fun x => p (f x)) l) = length (List.filter p (List.map f l)).
Proof.
  induction l as [|x l IH]; simpl; [done|].
  destruct (p (f x)); simpl; by rewrite IH.
Qed.

(** The SSN flags are a function of the SSN column alone. *)
Lemma ssn_occurrences_ext (v : value) (X Y : table) :
  List.map (col "ssn") X = List.map (col "ssn") Y →
  ssn_occurrences v X = ssn_occurrences v Y.
Proof.
  intros Heq. unfold ssn_occurrences.
  rewrite (length_filter_map (fun w => present w && Hash.eqb w v) (col "ssn") X).
  rewrite (length_filter_map (fun w => present w && Hash.eqb w v) (col "ssn") Y).
  by rewrite Heq.
Qed.

Lemma flag_column_ext (X Y : table) :
  List.map (col "ssn") X = List.map (col "ssn") Y →
  List.map (col "ssn_duplicate_flag") (flag_ssn_duplicates X)
  = List.map (col "ssn_duplicate_flag") (flag_ssn_duplicates Y).
Proof.
  intros Heq. rewrite !flag_ssn_duplicates_rows, !List.map_map.
  transitivity
    (List.map (fun w => VBool (present w && (1 <? ssn_occurrences w X)%nat))
       (List.map (col "ssn") X)).
  { rewrite List.map_map. apply List.map_ext. intros r. by rewrite col_insert_eq. }
  rewrite Heq, List.map_map. apply List.map_ext. intros r.
  by rewrite col_insert_eq, (ssn_occurrences_ext _ X Y Heq).
Qed.

Lemma flag_other_column (c : string) (X : table) :
  c ≠ "ssn_duplicate_flag" →
  List.map (col c) (flag_ssn_duplicates X) = List.map (col c) X.
Proof.
  intros Hc. rewrite flag_ssn_duplicates_unfold. by apply map_col_assign_ne.
Qed.

Lemma Forall2_maps {A B C} (R : B → C → Prop) (f : A → B) (g : A → C) (l : list A) :
  Forall (fun x => R (f x) (g x)) l → Forall2 R (List.map f l) (List.map g l).
Proof. induction 1; simpl; constructor; auto. Qed.

Lemma second_run_input (d : table) :
  ∃ flag : row → value,
    flag_ssn_duplicates (List.map clean_row d)
    = List.map (fun r => <["ssn_duplicate_flag" := flag r]> (clean_row r)) d
    ∧ drop_columns audit_columns (flag_ssn_duplicates (List.map clean_row d))
      = List.map (fun r => rerun_input (flag r) r) d.
Proof.
  eexists (fun r => VBool _).
  rewrite flag_ssn_duplicates_rows. unfold drop_columns.
  rewrite !List.map_map. split; reflexivity.
Qed.

Lemma col_gender_step_ne (c : string) (r : row) :
  c ≠ "gender" → c ≠ "gender_original" → col c (gender_step r) = col c r.
Proof. intros. unfold gender_step. by rewrite !col_insert_ne. Qed.

Lemma col_gender_step_eq (r : row) :
  col "gender" (gender_step r) = Hash.map_dict gender_map (col "gender" r).
Proof. unfold gender_step. by rewrite col_insert_eq. Qed.

Lemma col_dates_step_ne (c : string) (r : row) :
  c ≠ "date_of_birth" → c ≠ "date_of_birth_original" → col c (dates_step r) = col c r.
Proof. intros. unfold dates_step. by rewrite !col_insert_ne. Qed.

Lemma col_dates_step_eq (r : row) :
  col "date_of_birth" (dates_step r) = dob_after (col "date_of_birth" r).
Proof. unfold dates_step. by rewrite col_insert_eq. Qed.

Lemma col_income_step_ne (c : string) (r : row) :
  c ≠ "annual_income" → col c (income_step r) = col c r.
Proof. intros. unfold income_step. by rewrite !col_insert_ne. Qed.

Lemma col_income_step_eq (r : row) :
  col "annual_income" (income_step r) = income_after (col "annual_income" r).
Proof. unfold income_step. by rewrite col_insert_eq. Qed.

Lemma col_email_step_ne (c : string) (r : row) :
  c ≠ "email_valid" → col c (email_step r) = col c r.
Proof. intros. unfold email_step. by rewrite col_insert_ne. Qed.

Lemma col_email_step_eq (r : row) :
  col "email_valid" (email_step r) = VBool (is_valid_email (col "email" r)).
Proof. unfold email_step. by rewrite col_insert_eq. Qed.

Lemma col_score_step_ne (c : string) (r : row) :
  c ≠ "completeness_score" → c ≠ "completeness_pct" → col c (score_step r) = col c r.
Proof. intros. unfold score_step. by rewrite !col_insert_ne. Qed.

(** From here on the steps are read through the lemmas above only. *)
Opaque gender_step dates_step income_step nonneg_step email_step score_step.

Ltac cols :=
  unfold rerun_input, clean_row;
  repeat first
    [ rewrite col_insert_eq
    | rewrite col_nonneg_step_eq
    | rewrite col_gender_step_eq
    | rewrite col_dates_step_eq
    | rewrite col_income_step_eq
    | rewrite col_email_step_eq
    | rewrite col_insert_ne by discriminate
    | rewrite col_delete_ne by discriminate
    | rewrite col_nonneg_step_ne by discriminate
    | rewrite col_gender_step_ne by discriminate
    | rewrite col_dates_step_ne by discriminate
    | rewrite col_income_step_ne by discriminate
    | rewrite col_email_step_ne by discriminate
    | rewrite col_score_step_ne by discriminate ].

Lemma n_present_core (r : row) :
  n_present r = present_count (List.map (fun field => col field r) core_fields).
Proof. unfold n_present, present_count. apply length_filter_map. Qed.

Lemma clean_row_score (r : row) :
  col "completeness_score" (clean_row r)
  = VNum (inject_Z (Z.of_nat (present_count (core_after r))))
  ∧ col "completeness_pct" (clean_row r) = VNum (pct_of (present_count (core_after r))).
Proof.
  unfold clean_row, score_step at 1 2.
  rewrite col_insert_ne, !col_insert_eq by done.
  rewrite n_present_core.
  assert (List.map
            (fun field =>
               col field
                 (email_step
                    (nonneg_step "savings_balance"
                       (nonneg_step "credit_history_months"
                          (income_step (dates_step (gender_step r)))))))
            core_fields
          = core_after r) as ->; [|done].
  unfold core_fields, core_after, List.map. cols. reflexivity.
Qed.

Lemma present_count_cons (v : value) (vs : list value) :
  present_count (v :: vs) = (Nat.b2n (present v) + present_count vs)%nat.
Proof. unfold present_count. simpl. by destruct (present v). Qed.

Lemma core_after_rerun (flag : value) (r : row) :
  core_after (rerun_input flag r)
  = [ col "full_name" r; col "email" r; col "ssn" r; col "ip_address" r;
      Hash.map_dict gender_map (col "gender" r);
      NaT;
      col "zip_code" r;
      income_after (col "annual_income" r);
      nonneg (col "credit_history_months" r);
      col "debt_to_income" r;
      nonneg (col "savings_balance" r);
      col "loan_approved" r ].
Proof.
  unfold core_after. cols.
  by rewrite map_dict_gender_idem, dob_after_idem, income_after_idem, !nonneg_idem.
Qed.

(** The second run counts the date of birth as missing: the score of a row
    goes down by one when the first run had parsed a date. *)
Lemma present_count_rerun (flag : value) (r : row) :
  (present_count (core_after (rerun_input flag r))
   + Nat.b2n (present (dob_after (col "date_of_birth" r))))%nat
  = present_count (core_after r).
Proof.
  rewrite core_after_rerun. unfold core_after.
  rewrite !present_count_cons. change (Nat.b2n (present NaT)) with 0%nat. lia.
Qed.

Lemma row_ok_rerun (flag : value) (r : row) : row_ok r → row_ok (rerun_input flag r).
Proof.
  intros (_ & Hch & Hsb). unfold row_ok.
  assert (col "date_of_birth" (rerun_input flag r) = dob_after (col "date_of_birth" r))
    as -> by (by cols).
  assert (col "credit_history_months" (rerun_input flag r)
          = nonneg (col "credit_history_months" r)) as -> by (by cols).
  assert (col "savings_balance" (rerun_input flag r)
          = nonneg (col "savings_balance" r)) as -> by (by cols).
  rewrite parse_dob_dob_after, !lt_zero_nonneg by done.
  repeat split; eauto.
Qed.

Lemma ForallOrdPairs_map_impl {A B} (R : A → A → Prop) (R' : B → B → Prop)
    (f : A → B) (l : list A) :
  (∀ a b, R a b → R' (f a) (f b)) →
  ForallOrdPairs R l → ForallOrdPairs R' (List.map f l).
Proof.
  intros HR. induction 1 as [|x l Hx _ IH]; simpl; constructor; [|done].
  rewrite List.Forall_map. eapply Forall_impl; [exact Hx|]. intros y. apply HR.
Qed.

Lemma marked_ext (r r' : row) : col "notes" r' = col "notes" r → marked r' = marked r.
Proof. unfold marked. by intros ->. Qed.

(** C4 fails as stated: a table of one application whose date of birth
    parses.  The first run gives the row the score 1; run again on its own
    output without the audit columns, the pipeline turns the parsed date
    into the missing marker (the text of a timestamp is not a strict
    YYYY-MM-DD) and the score drops to 0, the percentage from 8.3 to 0. *)
Lemma clean_pipeline_rerun_counterexample :
  read_columns ["date_of_birth"; "completeness_score"; "completeness_pct"]
    (clean_pipeline [flat_row (VStr "A1") (VStr "2020-05-01") VNone VNone])
  = Ok [[VDate 2020 5 1; VNum 1; VNum (83 # 10)]]
  ∧ read_columns ["date_of_birth"; "completeness_score"; "completeness_pct"]
      (rerun [flat_row (VStr "A1") (VStr "2020-05-01") VNone VNone])
    = Ok [[NaT; VNum 0; VNum 0]].
Proof. split; vm_compute; reflexivity. Qed.

(** C4 as amended: when the pipeline returns a table, it also returns one
    on that table without the audit columns; the second run removes no
    row, and gives every row the same [email_valid] and the same
    [ssn_duplicate_flag]; it leaves every date of birth missing, so
    [completeness_score] and [completeness_pct] are the same on the rows
    whose date of birth was missing after the first run, and the score is
    one less on the rows whose date the first run had parsed. *)
Theorem clean_pipeline_rerun (df t1 : table) :
  clean_pipeline df = Ok t1 →
  ∃ t2,
    clean_pipeline (drop_columns audit_columns t1) = Ok t2
    ∧ length t2 = length t1
    ∧ List.map (col "app_id") t2 = List.map (col "app_id") t1
    ∧ List.map (col "email_valid") t2 = List.map (col "email_valid") t1
    ∧ List.map (col "ssn_duplicate_flag") t2 = List.map (col "ssn_duplicate_flag") t1
    ∧ Forall2
        (fun r1 r2 =>
           col "date_of_birth" r2 = NaT
           ∧ (col "date_of_birth" r1 = NaT →
              col "completeness_score" r2 = col "completeness_score" r1
              ∧ col "completeness_pct" r2 = col "completeness_pct" r1)
           ∧ (col "date_of_birth" r1 ≠ NaT →
              ∃ n : nat,
                col "completeness_score" r1 = VNum (inject_Z (Z.of_nat (S n)))
                ∧ col "completeness_score" r2 = VNum (inject_Z (Z.of_nat n))
                ∧ col "completeness_pct" r1 = VNum (pct_of (S n))
                ∧ col "completeness_pct" r2 = VNum (pct_of n)))
        t1 t2.
Proof.
  intros Hrun. apply clean_pipeline_Ok in Hrun as [Hok ->].
  pose proof (remove_duplicates_unmarked df) as Hunmarked.
  pose proof (drop_duplicates_distinct (col "app_id") [] (unmarked_rows df)) as Hdistinct.
  rewrite <- remove_duplicates_phases in Hdistinct.
  generalize dependent (remove_duplicates df). intros d Hok Hunmarked Hdistinct.
  destruct (second_run_input d) as (flag & Hflag & ->).
  set (input := List.map (fun r => rerun_input (flag r) r) d).
  assert (remove_duplicates input = input) as Hfix.
  { apply remove_duplicates_id; unfold input.
    - rewrite List.Forall_map. eapply Forall_impl; [exact Hunmarked|].
      intros r Hr. rewrite <- Hr. apply marked_ext. by cols.
    - eapply ForallOrdPairs_map_impl; [|exact Hdistinct].
      intros r1 r2 H12. simpl. cols. exact H12. }
  exists (flag_ssn_duplicates (List.map clean_row input)).
  split; [|split; [|split; [|split; [|split]]]].
  - apply clean_pipeline_Ok. rewrite Hfix. split; [|done].
    unfold input. rewrite List.Forall_map.
    eapply Forall_impl; [exact Hok|]. intros r Hr. by apply row_ok_rerun.
  - rewrite !flag_ssn_duplicates_unfold, !length_assign. unfold input.
    by rewrite !length_map.
  - rewrite !flag_other_column by discriminate. unfold input.
    rewrite !List.map_map. apply List.map_ext. intros r. by cols.
  - rewrite !flag_other_column by discriminate. unfold input.
    rewrite !List.map_map. apply List.map_ext. intros r. by cols.
  - apply flag_column_ext. unfold input.
    rewrite !List.map_map. apply List.map_ext. intros r. by cols.
  - destruct (second_run_input input) as (flag2 & -> & _). rewrite Hflag.
    unfold input. rewrite List.map_map.
    apply Forall2_maps, Forall_forall. intros r _.
    rewrite !(col_insert_ne "ssn_duplicate_flag") by discriminate.
    destruct (clean_row_score r) as [-> ->].
    destruct (clean_row_score (rerun_input (flag r) r)) as [-> ->].
    pose proof (present_count_rerun (flag r) r) as Hcount.
    assert (col "date_of_birth" (clean_row (rerun_input (flag r) r)) = NaT) as ->.
    { cols. apply dob_after_idem. }
    assert (col "date_of_birth" (clean_row r) = dob_after (col "date_of_birth" r))
      as -> by (by cols).
    split; [done|]. split.
    + intros Hd. rewrite Hd in Hcount. simpl in Hcount.
      rewrite Nat.add_0_r in Hcount. by rewrite Hcount.
    + intros Hd.
      destruct (dob_after_shape (col "date_of_birth" r)) as [Hn | (y & m & dd & Hv)];
        [done|].
      rewrite Hv in Hcount. simpl in Hcount.
      exists (present_count (core_after (rerun_input (flag r) r))).
      rewrite <- Hcount, Nat.add_1_r. done.
Qed.

(** The second run on the cleaned [two_applications] *)
Lemma clean_pipeline_rerun_witness :
  ∃ t2,
    clean_pipeline
      (drop_columns audit_columns
         (flag_ssn_duplicates
            (List.map clean_row (remove_duplicates two_applications)))) = Ok t2
    ∧ length t2 = 2%nat.
Proof.
  destruct (clean_pipeline_rerun two_applications
              (flag_ssn_duplicates
                 (List.map clean_row (remove_duplicates two_applications))))
    as (t2 & Hrun & Hlen & _).
  - vm_cast_no_check (eq_refl (clean_pipeline two_applications)).
  - exists t2. split; [exact Hrun|]. rewrite Hlen. vm_compute. reflexivity.
Defined.

Transparent gender_step dates_step income_step nonneg_step email_step score_step.

(** ** The precedence of the date formats *)


(** ** Invalid-value correction *)

Lemma lookup_nonneg_step_ne (c c' : string) (r : row) :
  c ≠ c' → nonneg_step c r !! c' = r !! c'.
Proof.
  intros Hne. unfold nonneg_step.
  destruct (lt_zero (col c r)) as [[|]|]; [by apply lookup_insert_ne|done|done].
Qed.

Lemma nonneg_cases (v : value) :
  (∃ b, lt_zero v = Ok b) →
  (nonneg v = VNone ∨ (∃ q, nonneg v = VNum q ∧ (0 <= q)%Q) ∨ ∃ b, nonneg v = VBool b)
  ∧ (∀ q, v = VNum q → (q < 0)%Q → nonneg v = VNone)
  ∧ (∀ q, v = VNum q → (0 <= q)%Q → nonneg v = v)
  ∧ (v = VNone → nonneg v = VNone).
Proof.
  intros [b Hb]. unfold nonneg.
  destruct v as [|s|q|b'|y m d]; simpl in *; try discriminate.
  - split; [by left|]. split; [intros q [=]|]. split; [intros q [=]|done].
  - destruct (Qle_bool 0 q) eqn:Hq; simpl.
    + apply Qle_bool_iff in Hq.
      split; [right; left; eauto|]. split; [|split; [done|intros [=]]].
      intros q' [= <-] Hlt. exfalso. by apply (Qlt_not_le _ _ Hlt).
    + split; [by left|]. split; [done|]. split; [|intros [=]].
      intros q' [= <-] Hle. apply Qle_bool_iff in Hle. congruence.
  - split; [right; right; eauto|].
    split; [intros q [=]|]. split; [intros q [=]|intros [=]].
Qed.

(** X2: when [fix_invalid_values] returns, it has kept every row and every
    other column; in [credit_history_months] and in [savings_balance] a
    number below zero has become the missing marker, a missing marker and
    a number that is not negative are unchanged, and what is left is the
    missing marker, a number that is not negative, or a bool. *)
Theorem fix_invalid_values_no_negative (df df' : table) :
  fix_invalid_values df = Ok df' →
  Forall2
    (fun r r' =>
       (∀ c, c = "credit_history_months" ∨ c = "savings_balance" →
          (col c r' = VNone ∨ (∃ q, col c r' = VNum q ∧ (0 <= q)%Q)
           ∨ ∃ b, col c r' = VBool b)
          ∧ (∀ q, col c r = VNum q → (q < 0)%Q → col c r' = VNone)
          ∧ (∀ q, col c r = VNum q → (0 <= q)%Q → col c r' = col c r)
          ∧ (col c r = VNone → col c r' = VNone))
       ∧ (∀ c, c ≠ "credit_history_months" → c ≠ "savings_balance" → r' !! c = r !! c))
    df df'.
Proof.
  intros [Hok ->]%fix_invalid_values_Ok.
  induction Hok as [|r df [Hch Hsb] _ IH]; simpl; constructor; [|exact IH].
  split.
  - intros c [-> | ->].
    + rewrite col_nonneg_step_ne, col_nonneg_step_eq by discriminate.
      by apply nonneg_cases.
    + rewrite col_nonneg_step_eq, col_nonneg_step_ne by discriminate.
      by apply nonneg_cases.
  - intros c Hc1 Hc2. by rewrite !lookup_nonneg_step_ne.
Qed.

(** The correction of a table with a negative credit history and a
    negative balance *)
Lemma fix_invalid_values_no_negative_witness :
  Forall2
    (fun r r' =>
       (∀ c, c = "credit_history_months" ∨ c = "savings_balance" →
          (col c r' = VNone ∨ (∃ q, col c r' = VNum q ∧ (0 <= q)%Q)
           ∨ ∃ b, col c r' = VBool b)
          ∧ (∀ q, col c r = VNum q → (q < 0)%Q → col c r' = VNone)
          ∧ (∀ q, col c r = VNum q → (0 <= q)%Q → col c r' = col c r)
          ∧ (col c r = VNone → col c r' = VNone))
       ∧ (∀ c, c ≠ "credit_history_months" → c ≠ "savings_balance" → r' !! c = r !! c))
    [ {[ "credit_history_months" := VNum (-3); "savings_balance" := VNum 100 ]};
      {[ "credit_history_months" := VNum 24; "savings_balance" := VNum (-50) ]} ]
    (List.map
       (fun r => nonneg_step "savings_balance" (nonneg_step "credit_history_months" r))
       [ {[ "credit_history_months" := VNum (-3); "savings_balance" := VNum 100 ]};
         {[ "credit_history_months" := VNum 24; "savings_balance" := VNum (-50) ]} ]).
Proof.
  apply fix_invalid_values_no_negative.
  vm_cast_no_check
    (eq_refl
       (fix_invalid_values
          [ {[ "credit_history_months" := VNum (-3); "savings_balance" := VNum 100 ]};
            {[ "credit_history_months" := VNum 24; "savings_balance" := VNum (-50) ]} ])).
Defined.

(** ** What the email pattern accepts *)

Lemma append_empty_inv (s1 s2 : string) :
  s1 +:+ s2 = EmptyString → s1 = EmptyString ∧ s2 = EmptyString.
Proof. destruct s1; [by rewrite append_nil|by rewrite append_cons]. Qed.

Lemma append_empty_r (s : string) : s +:+ EmptyString = s.
Proof. induction s as [|c s IH]; [done|]. by rewrite append_cons, IH. Qed.

Lemma nullable_matches (r : Re.regex) : Re.nullable r = true ↔ matches r EmptyString.
Proof.
  split.
  - induction r as [| |p|r1 IH1 r2 IH2|r1 IH1 r2 IH2|r IH]; simpl; try discriminate.
    + intros _. constructor.
    + intros [H1 H2]%andb_true_iff.
      change EmptyString with (EmptyString +:+ EmptyString). constructor; auto.
    + intros [H|H]%orb_true_iff; [apply MAltL|apply MAltR]; auto.
    + intros _. constructor.
  - remember EmptyString as s eqn:Hs. induction 1 as
      [|p c Hp|r1 r2 s1 s2 _ IH1 _ IH2|r1 r2 s _ IH|r1 r2 s _ IH| |r s1 s2 _ _ _ _];
      simpl; try done.
    + apply append_empty_inv in Hs as [-> ->]. by rewrite IH1, IH2.
    + by rewrite IH.
    + rewrite IH by done. apply orb_true_r.
Qed.

Lemma deriv_matches (c : ascii) (r : Re.regex) (s : string) :
  matches (Re.deriv c r) s ↔ matches r (String c s).
Proof.
  split.
  - revert s.
    induction r as [| |p|r1 IH1 r2 IH2|r1 IH1 r2 IH2|r IH]; simpl; intros s Hm.
    + inversion Hm.
    + inversion Hm.
    + destruct (p c) eqn:Hp; inversion Hm; subst. by constructor.
    + destruct (Re.nullable r1) eqn:Hn.
      * inversion Hm as [| |? ? ? ? | ? ? ? Hl | ? ? ? Hr | |]; subst.
        -- inversion Hl as [| |? ? s1 s2 H1 H2| | | |]; subst.
           rewrite <- append_cons. constructor; auto.
        -- change (String c s) with (EmptyString +:+ String c s).
           constructor; [by apply nullable_matches|auto].
      * inversion Hm as [| |? ? s1 s2 H1 H2| | | |]; subst.
        rewrite <- append_cons. constructor; auto.
    + inversion Hm; subst; [apply MAltL|apply MAltR]; auto.
    + inversion Hm as [| |? ? s1 s2 H1 H2| | | |]; subst.
      rewrite <- append_cons. constructor; auto.
  - remember (String c s) as t eqn:Ht. intros Hm. revert c s Ht.
    induction Hm as
      [|p c' Hp|r1 r2 s1 s2 H1 IH1 H2 IH2|r1 r2 s' _ IH|r1 r2 s' _ IH|
       |r s1 s2 H1 IH1 H2 IH2];
      intros c s Ht; simpl; try discriminate.
    + inversion Ht; subst. rewrite Hp. constructor.
    + destruct s1 as [|c1 s1].
      * rewrite append_nil in Ht. subst.
        rewrite (proj2 (nullable_matches r1) H1). apply MAltR. by apply IH2.
      * rewrite append_cons in Ht. inversion Ht; subst.
        destruct (Re.nullable r1); [apply MAltL|]; constructor; auto.
    + apply MAltL. by apply IH.
    + apply MAltR. by apply IH.
    + destruct s1 as [|c1 s1].
      * rewrite append_nil in Ht. by apply IH2.
      * rewrite append_cons in Ht. inversion Ht; subst. constructor; auto.
Qed.

Lemma fullmatch_matches (r : Re.regex) (s : string) :
  Re.fullmatch r s = true ↔ matches r s.
Proof.
  revert r. induction s as [|c s IH]; intros r; simpl.
  - apply nullable_matches.
  - rewrite IH. apply deriv_matches.
Qed.

Lemma matches_class (p : ascii → bool) (s : string) :
  matches (Re.Class p) s ↔ ∃ c, s = String c EmptyString ∧ p c = true.
Proof.
  split.
  - inversion 1; subst. eauto.
  - intros (c & -> & Hc). by constructor.
Qed.

Lemma matches_chr (c : ascii) (s : string) :
  matches (Re.Chr c) s ↔ s = String c EmptyString.
Proof.
  unfold Re.Chr. rewrite matches_class. split.
  - intros (c' & -> & Hc%Ascii.eqb_eq). by subst.
  - intros ->. exists c. split; [done|apply Ascii.eqb_refl].
Qed.

Lemma matches_cat (r1 r2 : Re.regex) (s : string) :
  matches (Re.Cat r1 r2) s
  ↔ ∃ s1 s2, s = s1 +:+ s2 ∧ matches r1 s1 ∧ matches r2 s2.
Proof.
  split.
  - inversion 1; subst. eauto.
  - intros (s1 & s2 & -> & H1 & H2). by constructor.
Qed.

Lemma all_chars_cons (p : ascii → bool) (c : ascii) (s : string) :
  all_chars p (String c s) = p c && all_chars p s.
Proof. reflexivity. Qed.

Lemma matches_star_class (p : ascii → bool) (s : string) :
  matches (Re.Star (Re.Class p)) s ↔ all_chars p s = true.
Proof.
  split.
  - remember (Re.Star (Re.Class p)) as r eqn:Hr. intros Hm.
    induction Hm as [| | | | | |r' s1 s2 H1 _ H2 IH2]; try discriminate; [done|].
    injection Hr as ->. apply matches_class in H1 as (c & -> & Hc).
    rewrite append_cons, append_nil, all_chars_cons, Hc. by apply IH2.
  - induction s as [|c s IH]; [intros _; constructor|].
    rewrite all_chars_cons. intros [Hc Hs]%andb_true_iff.
    change (String c s) with (String c EmptyString +:+ s).
    constructor; [by constructor|by apply IH].
Qed.

Lemma matches_plus_class (p : ascii → bool) (s : string) :
  matches (Re.Plus (Re.Class p)) s
  ↔ all_chars p s = true ∧ (1 <= String.length s)%nat.
Proof.
  unfold Re.Plus. rewrite matches_cat. split.
  - intros (s1 & s2 & -> & (c & -> & Hc)%matches_class & H2%matches_star_class).
    rewrite append_cons, append_nil, all_chars_cons, Hc, H2. simpl. split; [done|lia].
  - intros [Hs Hlen]. destruct s as [|c s]; [simpl in Hlen; lia|].
    rewrite all_chars_cons in Hs. apply andb_true_iff in Hs as [Hc Hs].
    exists (String c EmptyString), s. split; [done|].
    split; [by constructor|by apply matches_star_class].
Qed.

Lemma matches_atleast2_class (p : ascii → bool) (s : string) :
  matches (Re.AtLeast2 (Re.Class p)) s
  ↔ all_chars p s = true ∧ (2 <= String.length s)%nat.
Proof.
  unfold Re.AtLeast2. rewrite matches_cat. split.
  - intros (s1 & s2 & -> & (c & -> & Hc)%matches_class
            & (Hs & Hlen)%(matches_plus_class p)).
    rewrite append_cons, append_nil, all_chars_cons, Hc, Hs. simpl. split; [done|lia].
  - intros [Hs Hlen]. destruct s as [|c s]; [simpl in Hlen; lia|].
    rewrite all_chars_cons in Hs. apply andb_true_iff in Hs as [Hc Hs].
    exists (String c EmptyString), s. split; [done|].
    split; [by constructor|]. apply (matches_plus_class p).
    split; [done|]. simpl in Hlen. lia.
Qed.

Lemma matches_email_body (s : string) : matches email_body s ↔ email_shape s.
Proof.
  unfold email_body, email_shape. split.
  - intros (loc & r1 & -> & [Hloc Hl]%matches_plus_class & Hr1)%matches_cat.
    apply matches_cat in Hr1 as (a & r2 & -> & ->%matches_chr & Hr2).
    apply matches_cat in Hr2 as (dom & r3 & -> & [Hdom Hd]%matches_plus_class & Hr3).
    apply matches_cat in Hr3
      as (dot & tld & -> & ->%matches_chr & [Htld Ht]%matches_atleast2_class).
    exists loc, dom, tld. done.
  - intros (loc & dom & tld & -> & Hloc & Hl & Hdom & Hd & Htld & Ht).
    apply matches_cat. eexists loc, _. split; [reflexivity|].
    split; [by apply matches_plus_class|].
    apply matches_cat. eexists "@", _. split; [reflexivity|].
    split; [by apply matches_chr|].
    apply matches_cat. eexists dom, _. split; [reflexivity|].
    split; [by apply matches_plus_class|].
    apply matches_cat. eexists ".", tld. split; [reflexivity|].
    split; [by apply matches_chr|by apply matches_atleast2_class].
Qed.

Lemma matches_anchored (body : Re.regex) (s : string) :
  Re.match_anchored body s = true
  ↔ matches body s ∨ ∃ s', s = s' +:+ String Re.LF EmptyString ∧ matches body s'.
Proof.
  unfold Re.match_anchored, Re.Dollar.
  rewrite fullmatch_matches, matches_cat. split.
  - intros (s1 & s2 & -> & H1 & H2).
    inversion H2 as [| | |? ? ? He|? ? ? Hc| |]; subst.
    + inversion He; subst. left. by rewrite append_empty_r.
    + apply matches_chr in Hc as ->. right. eauto.
  - intros [Hm | (s' & -> & Hm)].
    + exists s, EmptyString. rewrite append_empty_r.
      split; [done|]. split; [done|]. apply MAltL. constructor.
    + exists s', (String Re.LF EmptyString).
      split; [done|]. split; [done|]. apply MAltR. by apply matches_chr.
Qed.

(** X3: [is_valid_email] accepts a text exactly when it has the shape of an
    address, or is such a text followed by one line feed; the missing
    marker, the empty string and numbers are refused. *)
Theorem is_valid_email_shape :
  (∀ s : string,
     is_valid_email (VStr s) = true
     ↔ email_shape s
       ∨ ∃ s', s = s' +:+ String Re.LF EmptyString ∧ email_shape s')
  ∧ is_valid_email VNone = false
  ∧ is_valid_email (VStr "") = false
  ∧ (∀ q, is_valid_email (VNum q) = false).
Proof.
  split; [|by repeat split].
  intros s. unfold is_valid_email. cbn [Pandas.isna eq_str orb py_str].
  destruct (String.eqb_spec s "") as [->|Hs].
  - split; [done|]. intros [(loc & dom & tld & Heq & _ & Hl & _) | (s' & Heq & _)].
    + symmetry in Heq. apply append_empty_inv in Heq as [-> _]. simpl in Hl. lia.
    + symmetry in Heq. by apply append_empty_inv in Heq as [_ ?].
  - rewrite matches_anchored, matches_email_body.
    by setoid_rewrite matches_email_body.
Qed.

(** ** Dates that are written out in full *)

Lemma digit_char_digit_of (k : Z) : 0 <= k <= 9 → digit_of (Py.digit_char k) k.
Proof.
  intros Hk.
  assert (k = 0 ∨ k = 1 ∨ k = 2 ∨ k = 3 ∨ k = 4 ∨ k = 5 ∨ k = 6 ∨ k = 7 ∨ k = 8 ∨ k = 9)
    as Hcases by lia.
  repeat (destruct Hcases as [-> | Hcases]; [by repeat split|]).
  subst. by repeat split.
Qed.

Lemma digit_of_mod (n : Z) : digit_of (Py.digit_char (n mod 10)) (n mod 10).
Proof. apply digit_char_digit_of. pose proof (Z.mod_pos_bound n 10). lia. Qed.

Lemma int_two_digits (p q : Z) :
  0 <= p <= 9 → 0 <= q <= 9 →
  Py.int (String (Py.digit_char p) (String (Py.digit_char q) "")) = Ok (10 * p + q).
Proof.
  intros Hp Hq.
  assert (p = 0 ∨ p = 1 ∨ p = 2 ∨ p = 3 ∨ p = 4 ∨ p = 5 ∨ p = 6 ∨ p = 7 ∨ p = 8 ∨ p = 9)
    as Hcp by lia.
  assert (q = 0 ∨ q = 1 ∨ q = 2 ∨ q = 3 ∨ q = 4 ∨ q = 5 ∨ q = 6 ∨ q = 7 ∨ q = 8 ∨ q = 9)
    as Hcq by lia.
  repeat (destruct Hcp as [-> | Hcp]);
    repeat (destruct Hcq as [-> | Hcq]); subst; reflexivity.
Qed.

Lemma int_pad2 (n : Z) : 0 <= n <= 99 → Py.int (Py.pad2 n) = Ok n.
Proof.
  intros Hn. unfold Py.pad2.
  pose proof (Z.mod_pos_bound (n / 10) 10). pose proof (Z.mod_pos_bound n 10).
  rewrite int_two_digits by lia.
  f_equal. Z.div_mod_to_equations. lia.
Qed.

Lemma four_digits (y : Z) :
  0 <= y <= 9999 →
  y = 1000 * (y / 100 / 10 mod 10) + 100 * (y / 100 mod 10)
      + 10 * (y / 10 mod 10) + y mod 10.
Proof. intros Hy. Z.div_mod_to_equations. lia. Qed.

Lemma two_digits (n : Z) : 0 <= n <= 99 → n = 10 * (n / 10 mod 10) + n mod 10.
Proof. intros Hn. Z.div_mod_to_equations. lia. Qed.

Lemma rstrip_last (s : string) (c : ascii) :
  Py.is_space c = false → Py.rstrip (s +:+ String c "") = s +:+ String c "".
Proof.
  intros Hc. induction s as [|c' s IH].
  - rewrite append_nil. simpl. by rewrite Hc.
  - rewrite append_cons. simpl. rewrite IH.
    destruct s; reflexivity.
Qed.

(** A text that neither starts nor ends with white space is its own
    [strip]. *)
Lemma strip_text (a c : ascii) (s : string) :
  Py.is_space a = false → Py.is_space c = false →
  Py.strip (String a (s +:+ String c "")) = String a (s +:+ String c "").
Proof.
  intros Ha Hc. unfold Py.strip. simpl. rewrite Ha.
  change (String a (s +:+ String c "")) with (String a s +:+ String c "").
  by apply rstrip_last.
Qed.

Lemma days_in_month_bounds (y m : Z) : 28 <= Pandas.days_in_month y m <= 31.
Proof. unfold Pandas.days_in_month. repeat case_match; lia. Qed.

(** Rewriting with what is known of the digits of a text *)
Ltac digit_rewrite :=
  repeat match goal with
         | H : Py.is_digit _ = true |- _ => rewrite H
         | H : Py.digit_val _ = _ |- _ => rewrite H
         | H : Ascii.eqb _ _ = false |- _ => rewrite H
         end.

(** Matching a text of digits and separators against a format *)
Ltac run_strptime :=
  cbn [Pandas.strptime];
  repeat match goal with
         | H : Py.is_digit _ = true |- _ => rewrite H
         | H : Py.digit_val _ = _ |- _ => rewrite H
         end;
  cbn [andb Ascii.eqb Bool.eqb];
  rewrite ?(proj2 (Z.leb_le _ _)) by lia;
  cbn [andb Pandas.orelse].

Section WrittenDates.

Variables (a b c e p q r s : ascii) (ka kb kc ke kp kq kr ks year v1 v2 : Z).
Hypotheses (Ha : digit_of a ka) (Hb : digit_of b kb) (Hc : digit_of c kc)
  (He : digit_of e ke) (Hp : digit_of p kp) (Hq : digit_of q kq)
  (Hr : digit_of r kr) (Hs : digit_of s ks).
Hypotheses (Hyear : year = 1000 * ka + 100 * kb + 10 * kc + ke)
  (Hv1 : v1 = 10 * kp + kq) (Hv2 : v2 = 10 * kr + ks).

Ltac digits :=
  destruct Ha as (Ha1 & Ha2 & Ha3 & Ha4 & Ha5);
  destruct Hb as (Hb1 & Hb2 & Hb3 & Hb4 & Hb5);
  destruct Hc as (Hc1 & Hc2 & Hc3 & Hc4 & Hc5);
  destruct He as (He1 & He2 & He3 & He4 & He5);
  destruct Hp as (Hp1 & Hp2 & Hp3 & Hp4 & Hp5);
  destruct Hq as (Hq1 & Hq2 & Hq3 & Hq4 & Hq5);
  destruct Hr as (Hr1 & Hr2 & Hr3 & Hr4 & Hr5);
  destruct Hs as (Hs1 & Hs2 & Hs3 & Hs4 & Hs5).

Lemma to_datetime_year_first (sep : ascii) :
  1 <= year → valid_date year v1 v2 →
  Pandas.to_datetime (year_first sep a b c e p q r s)
    [Pandas.DirY; Pandas.Lit sep; Pandas.Dirm; Pandas.Lit sep; Pandas.Dird]
  = Ok (VDate year v1 v2).
Proof.
  intros Hy [Hm Hd]. pose proof (days_in_month_bounds year v1) as Hdays. digits.
  unfold Pandas.to_datetime, year_first. run_strptime.
  rewrite !Ascii.eqb_refl. run_strptime.
  rewrite <- Hyear, <- Hv1, <- Hv2. rewrite ?(proj2 (Z.leb_le _ _)) by lia. reflexivity.
Qed.

Lemma parse_dob_iso :
  1 <= year → valid_date year v1 v2 →
  parse_dob (VStr (year_first "-" a b c e p q r s)) = Ok (VDate year v1 v2).
Proof.
  intros Hy Hv. pose proof (to_datetime_year_first "-" Hy Hv) as Hparse. digits.
  assert (Py.strip (year_first "-" a b c e p q r s) = year_first "-" a b c e p q r s)
    as Hstrip.
  { by apply (strip_text a s
                (String b (String c (String e (String "-"
                   (String p (String q (String "-" (String r ""))))))))). }
  assert (Py.contains "-" (year_first "-" a b c e p q r s) = true) as Hdash.
  { unfold year_first. cbn [Py.contains]. by rewrite !orb_true_r. }
  unfold parse_dob. cbn [Pandas.isna eq_str orb py_str].
  rewrite Hstrip, Hdash. fold Pandas.Ymd_dash in Hparse. rewrite Hparse.
  assert (String.eqb (year_first "-" a b c e p q r s) "None" = false) as ->
    by (unfold year_first; cbn [String.eqb]; by repeat case_match).
  reflexivity.
Qed.

Lemma parse_dob_ymd_slash :
  1 <= year → valid_date year v1 v2 →
  parse_dob (VStr (year_first "/" a b c e p q r s)) = Ok (VDate year v1 v2).
Proof.
  intros Hy Hv. pose proof (to_datetime_year_first "/" Hy Hv) as Hparse. digits.
  assert (Py.strip (year_first "/" a b c e p q r s) = year_first "/" a b c e p q r s)
    as Hstrip.
  { by apply (strip_text a s
                (String b (String c (String e (String "/"
                   (String p (String q (String "/" (String r ""))))))))). }
  assert (Py.contains "-" (year_first "/" a b c e p q r s) = false) as Hdash.
  { unfold year_first. cbn [Py.contains]. digit_rewrite. reflexivity. }
  assert (Py.contains "/" (year_first "/" a b c e p q r s) = true) as Hslash.
  { unfold year_first. cbn [Py.contains]. by rewrite !orb_true_r. }
  assert (Py.split "/" (year_first "/" a b c e p q r s)
          = [String a (String b (String c (String e "")));
             String p (String q ""); String r (String s "")]) as Hsplit.
  { unfold year_first. cbn [Py.split]. digit_rewrite.
    cbn [Ascii.eqb Bool.eqb]. reflexivity. }
  unfold parse_dob. cbn [Pandas.isna eq_str orb py_str].
  rewrite Hstrip, Hdash, Hslash, Hsplit. fold Pandas.Ymd_slash in Hparse.
  cbn [length Nat.eqb negb nth String.length]. rewrite Hparse.
  assert (String.eqb (year_first "/" a b c e p q r s) "None" = false) as ->
    by (unfold year_first; cbn [String.eqb]; by repeat case_match).
  reflexivity.
Qed.

Lemma to_datetime_dmY :
  1 <= year → valid_date year v2 v1 →
  Pandas.to_datetime (year_last p q r s a b c e) Pandas.dmY_slash = Ok (VDate year v2 v1).
Proof.
  intros Hy [Hm Hd]. pose proof (days_in_month_bounds year v2) as Hdays. digits.
  unfold Pandas.to_datetime, year_last, Pandas.dmY_slash. run_strptime.
  rewrite <- Hyear, <- Hv1, <- Hv2. rewrite ?(proj2 (Z.leb_le _ _)) by lia. reflexivity.
Qed.

Lemma to_datetime_mdY :
  1 <= year → valid_date year v1 v2 →
  Pandas.to_datetime (year_last p q r s a b c e) Pandas.mdY_slash = Ok (VDate year v1 v2).
Proof.
  intros Hy [Hm Hd]. pose proof (days_in_month_bounds year v1) as Hdays. digits.
  unfold Pandas.to_datetime, year_last, Pandas.mdY_slash. run_strptime.
  rewrite <- Hyear, <- Hv1, <- Hv2. rewrite ?(proj2 (Z.leb_le _ _)) by lia. reflexivity.
Qed.

Lemma parse_dob_year_last :
  Py.int (String p (String q "")) = Ok v1 →
  Py.int (String r (String s "")) = Ok v2 →
  parse_dob (VStr (year_last p q r s a b c e))
  = except_NaT (Pandas.to_datetime (year_last p q r s a b c e) (slash_format v1 v2)).
Proof.
  intros Hint1 Hint2. digits.
  assert (Py.strip (year_last p q r s a b c e) = year_last p q r s a b c e) as Hstrip.
  { by apply (strip_text p e
                (String q (String "/" (String r (String s (String "/"
                   (String a (String b (String c ""))))))))). }
  assert (Py.contains "-" (year_last p q r s a b c e) = false) as Hdash.
  { unfold year_last. cbn [Py.contains]. digit_rewrite. reflexivity. }
  assert (Py.contains "/" (year_last p q r s a b c e) = true) as Hslash.
  { unfold year_last. cbn [Py.contains]. by rewrite !orb_true_r. }
  assert (Py.split "/" (year_last p q r s a b c e)
          = [String p (String q ""); String r (String s "");
             String a (String b (String c (String e "")))]) as Hsplit.
  { unfold year_last. cbn [Py.split]. digit_rewrite.
    cbn [Ascii.eqb Bool.eqb]. reflexivity. }
  unfold parse_dob. cbn [Pandas.isna eq_str orb py_str].
  rewrite Hstrip, Hdash, Hslash, Hsplit.
  cbn [length Nat.eqb negb nth String.length]. rewrite Hint1, Hint2.
  assert (String.eqb (year_last p q r s a b c e) "None" = false) as ->
    by (unfold year_last; cbn [String.eqb]; by repeat case_match).
  cbn [mbind result_bind]. unfold slash_format. by repeat case_match.
Qed.

End WrittenDates.

(** X18: a day of the calendar, in a year whose days all fit a
    [Timestamp] (1678 to 2261), written with a four-digit year and two-digit
    month and day, is read back by [parse_dob] when it is written as
    YYYY-MM-DD, YYYY/MM/DD or DD/MM/YYYY.  Written as MM/DD/YYYY it is read
    back when the day exceeds 12; when the day is at most 12 the text is
    taken for DD/MM/YYYY, and the date that comes out has day and month
    exchanged. *)
Theorem parse_dob_written_dates (y m d : Z) :
  1678 <= y <= 2261 → valid_date y m d →
  parse_dob (VStr (iso_text y m d)) = Ok (VDate y m d)
  ∧ parse_dob (VStr (ymd_text y m d)) = Ok (VDate y m d)
  ∧ parse_dob (VStr (dmy_text y m d)) = Ok (VDate y m d)
  ∧ parse_dob (VStr (mdy_text y m d))
    = Ok (if 12 <? d then VDate y m d else VDate y d m).
Proof.
  intros Hy Hv. pose proof Hv as [Hm Hd].
  pose proof (days_in_month_bounds y m) as Hdays.
  pose proof (days_in_month_bounds y d) as Hdays'.
  pose proof (four_digits y ltac:(lia)) as Hy4.
  pose proof (two_digits m ltac:(lia)) as Hm2.
  pose proof (two_digits d ltac:(lia)) as Hd2.
  repeat split.
  - change (iso_text y m d)
      with (year_first "-"
              (Py.digit_char (y / 100 / 10 mod 10)) (Py.digit_char (y / 100 mod 10))
              (Py.digit_char (y / 10 mod 10)) (Py.digit_char (y mod 10))
              (Py.digit_char (m / 10 mod 10)) (Py.digit_char (m mod 10))
              (Py.digit_char (d / 10 mod 10)) (Py.digit_char (d mod 10))).
    eapply parse_dob_iso; try apply digit_of_mod; try done; lia.
  - change (ymd_text y m d)
      with (year_first "/"
              (Py.digit_char (y / 100 / 10 mod 10)) (Py.digit_char (y / 100 mod 10))
              (Py.digit_char (y / 10 mod 10)) (Py.digit_char (y mod 10))
              (Py.digit_char (m / 10 mod 10)) (Py.digit_char (m mod 10))
              (Py.digit_char (d / 10 mod 10)) (Py.digit_char (d mod 10))).
    eapply parse_dob_ymd_slash; try apply digit_of_mod; try done; lia.
  - change (dmy_text y m d)
      with (year_last (Py.digit_char (d / 10 mod 10)) (Py.digit_char (d mod 10))
              (Py.digit_char (m / 10 mod 10)) (Py.digit_char (m mod 10))
              (Py.digit_char (y / 100 / 10 mod 10)) (Py.digit_char (y / 100 mod 10))
              (Py.digit_char (y / 10 mod 10)) (Py.digit_char (y mod 10))).
    erewrite parse_dob_year_last;
      try apply digit_of_mod; try (apply int_pad2; lia).
    assert (slash_format d m = Pandas.dmY_slash) as ->.
    { unfold slash_format. repeat case_match; try done; lia. }
    erewrite to_datetime_dmY; try apply digit_of_mod; try done; lia.
  - change (mdy_text y m d)
      with (year_last (Py.digit_char (m / 10 mod 10)) (Py.digit_char (m mod 10))
              (Py.digit_char (d / 10 mod 10)) (Py.digit_char (d mod 10))
              (Py.digit_char (y / 100 / 10 mod 10)) (Py.digit_char (y / 100 mod 10))
              (Py.digit_char (y / 10 mod 10)) (Py.digit_char (y mod 10))).
    erewrite parse_dob_year_last;
      try apply digit_of_mod; try (apply int_pad2; lia).
    unfold slash_format.
    assert ((12 <? m) = false) as -> by lia.
    destruct (12 <? d) eqn:H12.
    + erewrite to_datetime_mdY; try apply digit_of_mod; try done; lia.
    + erewrite to_datetime_dmY; try apply digit_of_mod; try done; try lia.
      split; lia.
Qed.

(** The fifth of April 1990: written day first it is read back, written
    month first it becomes the fourth of May. *)
Lemma parse_dob_written_dates_witness :
  parse_dob (VStr (dmy_text 1990 4 5)) = Ok (VDate 1990 4 5)
  ∧ parse_dob (VStr (mdy_text 1990 4 5)) = Ok (VDate 1990 5 4).
Proof.
  destruct (parse_dob_written_dates 1990 4 5) as (_ & _ & Hdmy & Hmdy).
  - lia.
  - split; [lia|]. vm_compute. split; discriminate.
  - split; [exact Hdmy|exact Hmdy].
Defined.

(** ** The dates that the date step writes *)

Lemma to_datetime_valid (s : string) (fmt : list Pandas.directive) (v : value) :
  except_NaT (Pandas.to_datetime s fmt) = Ok v →
  v = VNone ∨ ∃ y m d, v = VDate y m d ∧ 1 <= y ∧ valid_date y m d.
Proof.
  unfold Pandas.to_datetime, except_NaT, valid_date.
  repeat case_match; intros; simplify_eq; eauto.
  right. eexists _, _, _. split; [done|].
  repeat match goal with
         | H : _ && _ = true |- _ => apply andb_true_iff in H as [? ?]
         end.
  lia.
Qed.

Lemma parse_dob_valid (val v : value) :
  parse_dob val = Ok v →
  v = VNone ∨ ∃ y m d, v = VDate y m d ∧ 1 <= y ∧ valid_date y m d.
Proof.
  unfold parse_dob, mbind, result_bind.
  repeat case_match; try discriminate; try (intros [= <-]; by left);
    try (by apply to_datetime_valid).
Qed.

Lemma dob_after_valid (v : value) :
  dob_after v = NaT ∨ ∃ y m d, dob_after v = VDate y m d ∧ 1 <= y ∧ valid_date y m d.
Proof.
  unfold dob_after. destruct (parse_dob v) as [d|e] eqn:Hv; [|by left].
  by apply parse_dob_valid in Hv.
Qed.

(** ** The cleaned table *)

(** The pipeline, from the table to its rows *)
Lemma clean_pipeline_rows (df out : table) :
  clean_pipeline df = Ok out →
  Forall row_ok (remove_duplicates df)
  ∧ out = flag_ssn_duplicates (List.map clean_row (remove_duplicates df)).
Proof.
  intros (t & v & [Hd ->]%normalize_dates_Ok & [Hv ->]%fix_invalid_values_Ok & ->)
    %clean_pipeline_steps.
  rewrite standardize_gender_rows in Hd, Hv |- *. fold gender_step in Hd, Hv |- *.
  rewrite fix_income_types_rows in Hv |- *.
  rewrite flag_missing_fields_rows.
  unfold validate_emails, assign. rewrite !List.map_map.
  split; [|reflexivity].
  rewrite !List.Forall_map in Hv. rewrite List.Forall_map in Hd.
  apply Forall_forall. intros r Hr. rewrite Forall_forall in Hd, Hv.
  apply row_ok_steps. specialize (Hd r Hr). specialize (Hv r Hr).
  fold (income_step (dates_step (gender_step r))) in Hv. tauto.
Qed.

Lemma col_gender_step_original (r : row) :
  col "gender_original" (gender_step r) = col "gender" r.
Proof. unfold gender_step. by rewrite col_insert_ne, col_insert_eq. Qed.

Lemma col_dates_step_original (r : row) :
  col "date_of_birth_original" (dates_step r) = col "date_of_birth" r.
Proof. unfold dates_step. by rewrite col_insert_ne, col_insert_eq. Qed.

(** The steps leave the columns alone that they do not write. *)
Lemma clean_row_kept (c : string) (r : row) :
  ¬ In c written_columns → clean_row r !! c = r !! c.
Proof.
  intros Hc. unfold written_columns in Hc. simpl in Hc.
  unfold clean_row, score_step, email_step.
  rewrite !lookup_insert_ne by (intros <-; tauto).
  rewrite !lookup_nonneg_step_ne by (intros <-; tauto).
  unfold income_step, dates_step, gender_step.
  by rewrite !lookup_insert_ne by (intros <-; tauto).
Qed.

Lemma col_flag_ne (c : string) (v : value) (r : row) :
  c ≠ "ssn_duplicate_flag" → col c (<["ssn_duplicate_flag" := v]> r) = col c r.
Proof. intros Hc. by rewrite col_insert_ne. Qed.

Lemma present_count_le (vs : list value) : (present_count vs <= length vs)%nat.
Proof.
  unfold present_count. induction vs as [|v vs IH]; simpl; [lia|].
  destruct (present v); simpl; lia.
Qed.

Opaque gender_step dates_step income_step nonneg_step email_step score_step.

(** The columns of a cleaned row, from the row before *)
Lemma clean_row_columns (r : row) :
  col "gender" (clean_row r) = Hash.map_dict gender_map (col "gender" r)
  ∧ col "gender_original" (clean_row r) = col "gender" r
  ∧ col "date_of_birth" (clean_row r) = dob_after (col "date_of_birth" r)
  ∧ col "date_of_birth_original" (clean_row r) = col "date_of_birth" r
  ∧ col "annual_income" (clean_row r) = income_after (col "annual_income" r)
  ∧ col "credit_history_months" (clean_row r) = nonneg (col "credit_history_months" r)
  ∧ col "savings_balance" (clean_row r) = nonneg (col "savings_balance" r)
  ∧ col "email_valid" (clean_row r) = VBool (is_valid_email (col "email" r)).
Proof.
  repeat split; cols; try done.
  - apply col_gender_step_original.
  - rewrite col_dates_step_original. by cols.
Qed.

Lemma clean_row_cleaned (b : bool) (r : row) :
  row_ok r → marked r = false →
  cleaned (<["ssn_duplicate_flag" := VBool b]> (clean_row r)).
Proof.
  intros (_ & Hch & Hsb) Hm.
  destruct (clean_row_columns r) as (Hg & _ & Hd & _ & Hi & Hc & Hs & He).
  destruct (clean_row_score r) as [Hscore Hpct].
  unfold cleaned. rewrite !col_flag_ne by discriminate.
  rewrite Hg, Hd, Hi, He, Hscore, Hpct, col_insert_eq.
  split.
  { transitivity (marked r); [|exact Hm].
    apply marked_ext. rewrite col_flag_ne by discriminate. by cols. }
  split. { rewrite map_dict_gender_cases. repeat case_match; auto. }
  split; [apply dob_after_valid|].
  split. { rewrite income_after_cases. case_match; eauto. }
  split.
  { intros c [-> | ->]; rewrite col_flag_ne by discriminate.
    - rewrite Hc. by apply nonneg_cases.
    - rewrite Hs. by apply nonneg_cases. }
  split; [eauto|]. split; [|eauto].
  exists (present_count (core_after r)). split; [|done].
  apply (present_count_le (core_after r)).
Qed.

(** X13: what a reader of the cleaned table may rely on.  When
    [clean_pipeline] returns, no two rows of its table have the same
    [app_id], and in every row: [notes] is no duplicate marker; [gender] is
    ["Male"], ["Female"] or missing; [date_of_birth] is missing or a day of
    the calendar; [annual_income] is missing or a whole number;
    [credit_history_months] and [savings_balance] are missing, a bool or a
    number that is not negative; [email_valid] and [ssn_duplicate_flag] are
    bools; [completeness_score] is a whole number from 0 to 12 and
    [completeness_pct] the percentage that belongs to it. *)
Theorem clean_pipeline_postcondition (df out : table) :
  clean_pipeline df = Ok out →
  ForallOrdPairs (fun r1 r2 => Hash.eqb (col "app_id" r1) (col "app_id" r2) = false) out
  ∧ Forall cleaned out.
Proof.
  intros [Hok ->]%clean_pipeline_rows.
  pose proof (remove_duplicates_unmarked df) as Hunmarked.
  pose proof (drop_duplicates_distinct (col "app_id") [] (unmarked_rows df)) as Hdistinct.
  rewrite <- remove_duplicates_phases in Hdistinct.
  generalize dependent (remove_duplicates df). intros d Hok Hunmarked Hdistinct.
  rewrite flag_ssn_duplicates_rows, List.map_map. split.
  - eapply ForallOrdPairs_map_impl; [|exact Hdistinct].
    intros r1 r2 H12. simpl. rewrite !col_flag_ne by discriminate. cols. exact H12.
  - rewrite List.Forall_map. apply Forall_forall. intros r Hr.
    rewrite Forall_forall in Hok, Hunmarked.
    apply clean_row_cleaned; auto.
Qed.

(** The cleaned [two_applications] *)
Lemma clean_pipeline_postcondition_witness :
  Forall cleaned
    (flag_ssn_duplicates (List.map clean_row (remove_duplicates two_applications))).
Proof.
  destruct (clean_pipeline_postcondition two_applications
              (flag_ssn_duplicates
                 (List.map clean_row (remove_duplicates two_applications))))
    as [_ Hrows].
  - vm_cast_no_check (eq_refl (clean_pipeline two_applications)).
  - exact Hrows.
Defined.

(** X14: what the pipeline keeps.  When [clean_pipeline] returns, its
    table has one row for each row that deduplication leaves, in the same
    order; in such a row every column outside those that the pipeline
    writes (the five cleaned columns, the two audit columns and the four
    annotation columns) is as it was, [gender_original] is the gender
    before cleaning and [date_of_birth_original] the date of birth before
    cleaning. *)
Theorem clean_pipeline_keeps (df out : table) :
  clean_pipeline df = Ok out →
  Forall2
    (fun r r' =>
       (∀ c, ¬ In c written_columns → r' !! c = r !! c)
       ∧ col "gender_original" r' = col "gender" r
       ∧ col "date_of_birth_original" r' = col "date_of_birth" r)
    (remove_duplicates df) out.
Proof.
  intros [_ ->]%clean_pipeline_rows.
  rewrite flag_ssn_duplicates_rows, List.map_map.
  rewrite <- (List.map_id (remove_duplicates df)) at 1.
  apply Forall2_maps, Forall_forall. intros r _.
  destruct (clean_row_columns r) as (_ & Hg & _ & Hd & _).
  rewrite !col_flag_ne by discriminate. split; [|done].
  intros c Hc. rewrite lookup_insert_ne; [by apply clean_row_kept|].
  intros <-. apply Hc. unfold written_columns. simpl. tauto.
Qed.

(** The rows of the cleaned [two_applications] *)
Lemma clean_pipeline_keeps_witness :
  Forall2
    (fun r r' =>
       (∀ c, ¬ In c written_columns → r' !! c = r !! c)
       ∧ col "gender_original" r' = col "gender" r
       ∧ col "date_of_birth_original" r' = col "date_of_birth" r)
    (remove_duplicates two_applications)
    (flag_ssn_duplicates (List.map clean_row (remove_duplicates two_applications))).
Proof.
  apply clean_pipeline_keeps.
  vm_cast_no_check (eq_refl (clean_pipeline two_applications)).
Defined.

(** X15: the columns that the pipeline adds are computed from the rows that
    deduplication leaves.  When [clean_pipeline] returns, then for such a
    row [email_valid] is the validity of its email; [completeness_score]
    counts the core fields that are present once cleaned (a gender that
    maps to nothing, a date that does not parse, an income that is no
    number and a negative credit history or balance count as missing) and
    [completeness_pct] is the percentage of that count;
    [ssn_duplicate_flag] tells whether its SSN is present and held by more
    than one of the rows that deduplication leaves. *)
Theorem clean_pipeline_derived_columns (df out : table) :
  clean_pipeline df = Ok out →
  Forall2
    (fun r r' =>
       col "email_valid" r' = VBool (is_valid_email (col "email" r))
       ∧ col "completeness_score" r'
         = VNum (inject_Z (Z.of_nat (present_count (core_after r))))
       ∧ col "completeness_pct" r' = VNum (pct_of (present_count (core_after r)))
       ∧ col "ssn_duplicate_flag" r'
         = VBool (present (col "ssn" r)
                  && (1 <? ssn_occurrences (col "ssn" r) (remove_duplicates df))%nat))
    (remove_duplicates df) out.
Proof.
  intros [_ ->]%clean_pipeline_rows.
  generalize (remove_duplicates df). intros d.
  assert (List.map (col "ssn") (List.map clean_row d) = List.map (col "ssn") d) as Hssn.
  { rewrite List.map_map. apply List.map_ext. intros r. by cols. }
  rewrite flag_ssn_duplicates_rows, List.map_map.
  rewrite <- (List.map_id d) at 1.
  apply Forall2_maps, Forall_forall. intros r _.
  destruct (clean_row_columns r) as (_ & _ & _ & _ & _ & _ & _ & He).
  destruct (clean_row_score r) as [Hscore Hpct].
  rewrite !col_flag_ne by discriminate. rewrite col_insert_eq.
  repeat split; try done.
  assert (col "ssn" (clean_row r) = col "ssn" r) as -> by (by cols).
  by rewrite (ssn_occurrences_ext _ _ _ Hssn).
Qed.

(** The added columns of the cleaned [two_applications] *)
Lemma clean_pipeline_derived_columns_witness :
  Forall2
    (fun r r' =>
       col "email_valid" r' = VBool (is_valid_email (col "email" r))
       ∧ col "completeness_score" r'
         = VNum (inject_Z (Z.of_nat (present_count (core_after r))))
       ∧ col "completeness_pct" r' = VNum (pct_of (present_count (core_after r)))
       ∧ col "ssn_duplicate_flag" r'
         = VBool (present (col "ssn" r)
                  && (1 <? ssn_occurrences (col "ssn" r)
                             (remove_duplicates two_applications))%nat))
    (remove_duplicates two_applications)
    (flag_ssn_duplicates (List.map clean_row (remove_duplicates two_applications))).
Proof.
  apply clean_pipeline_derived_columns.
  vm_cast_no_check (eq_refl (clean_pipeline two_applications)).
Defined.

Transparent gender_step dates_step income_step nonneg_step email_step score_step.

(** ** When the steps raise *)

Lemma split_no_sep (c : ascii) (p : string) :
  Py.contains c p = false → Py.split c p = [p].
Proof.
  induction p as [|c' p IH]; [reflexivity|]. simpl.
  intros [Hc Hp]%orb_false_iff. by rewrite Hc, (IH Hp).
Qed.













(** ** Running a step twice *)

(** X19: [standardize_gender] run on its own result leaves the [gender]
    column as it is, but overwrites the audit column: [gender_original]
    then holds the standardized gender, and the value before cleaning is
    gone. *)
Theorem standardize_gender_twice (df : table) :
  List.map (col "gender") (standardize_gender (standardize_gender df))
  = List.map (col "gender") (standardize_gender df)
  ∧ List.map (col "gender_original") (standardize_gender (standardize_gender df))
    = List.map (col "gender") (standardize_gender df).
Proof.
  rewrite !standardize_gender_rows, !List.map_map.
  split; apply List.map_ext; intros r.
  - by rewrite !col_insert_eq, map_dict_gender_idem.
  - by rewrite col_insert_ne, !col_insert_eq.
Qed.

Lemma n_present_ext (r r' : row) :
  (∀ c, In c core_fields → col c r' = col c r) → n_present r' = n_present r.
Proof.
  intros Hcols. unfold n_present. f_equal.
  apply List.filter_ext_in. intros c Hc. by rewrite (Hcols c Hc).
Qed.

Lemma ssn_flag_idem (df : table) :
  flag_ssn_duplicates (flag_ssn_duplicates df) = flag_ssn_duplicates df.
Proof.
  assert (List.map (col "ssn") (flag_ssn_duplicates df) = List.map (col "ssn") df) as Hssn.
  { by apply flag_other_column. }
  rewrite (flag_ssn_duplicates_rows (flag_ssn_duplicates df)).
  erewrite List.map_ext;
    [|intros r; rewrite (ssn_occurrences_ext _ _ _ Hssn); reflexivity].
  rewrite flag_ssn_duplicates_rows, List.map_map. apply List.map_ext. intros r.
  by rewrite col_insert_ne, insert_insert_eq.
Qed.

(** X20: the steps that follow the date step are idempotent.  Run on its
    own result, each of [fix_income_types], [validate_emails],
    [flag_missing_fields] and [flag_ssn_duplicates] returns that result
    unchanged, and so does [fix_invalid_values] on a table that it has
    returned. *)
Theorem steps_idempotent (df : table) :
  fix_income_types (fix_income_types df) = fix_income_types df
  ∧ (∀ df', fix_invalid_values df = Ok df' → fix_invalid_values df' = Ok df')
  ∧ validate_emails (validate_emails df) = validate_emails df
  ∧ flag_missing_fields (flag_missing_fields df) = flag_missing_fields df
  ∧ flag_ssn_duplicates (flag_ssn_duplicates df) = flag_ssn_duplicates df.
Proof.
  split; [|split; [|split; [|split]]].
  - rewrite !fix_income_types_rows, List.map_map. apply List.map_ext. intros r.
    rewrite !insert_insert_eq, col_insert_eq.
    fold (income_after (col "annual_income" r)).
    fold (income_after (income_after (col "annual_income" r))).
    by rewrite income_after_idem.
  - intros df' [Hall ->]%fix_invalid_values_Ok.
    apply fix_invalid_values_Ok. split.
    + rewrite List.Forall_map. eapply Forall_impl; [exact Hall|].
      intros r [H1 H2]. simpl.
      rewrite col_nonneg_step_ne, !col_nonneg_step_eq, col_nonneg_step_ne by done.
      rewrite !lt_zero_nonneg by done. eauto.
    + rewrite List.map_map. apply List.map_ext_in. intros r Hr.
      rewrite Forall_forall in Hall.
      destruct (Hall r (proj2 (list_elem_of_In _ _) Hr)) as [H1 H2].
      assert (∀ c r, lt_zero (col c r) = Ok false → nonneg_step c r = r) as Hid.
      { intros c r' Hc. unfold nonneg_step. by rewrite Hc. }
      symmetry.
      rewrite (Hid "credit_history_months"
                 (nonneg_step "savings_balance" (nonneg_step "credit_history_months" r))).
      * apply (Hid "savings_balance"
                 (nonneg_step "savings_balance" (nonneg_step "credit_history_months" r))).
        rewrite col_nonneg_step_eq. apply lt_zero_nonneg.
        by rewrite col_nonneg_step_ne.
      * rewrite col_nonneg_step_ne, col_nonneg_step_eq by done. by apply lt_zero_nonneg.
  - unfold validate_emails, assign. rewrite List.map_map. apply List.map_ext. intros r.
    by rewrite col_insert_ne, insert_insert_eq.
  - rewrite !flag_missing_fields_rows, List.map_map. apply List.map_ext. intros r.
    rewrite (n_present_ext r).
    + apply map_eq. intros k.
      destruct (decide (k = "completeness_pct")) as [Hk|Hk];
        destruct (decide (k = "completeness_score")) as [Hk'|Hk'];
        subst; by simplify_map_eq.
    + intros c Hc. rewrite !col_insert_ne; [done| |];
        intros <-; unfold core_fields in Hc; simpl in Hc;
        repeat (destruct Hc as [Hc|Hc]; [discriminate|]); done.
  - apply ssn_flag_idem.
Qed.

(** ** The loader *)

Section LoaderProperties.

Import Json.

(** Running the binds of a computation whose first steps have returned *)
Ltac binds := cbn [mbind outcome_bind mret outcome_ret get default].

Lemma bind_assoc {A B C} (r : outcome A) (f : A → outcome B) (g : B → outcome C) :
  (r ≫= f) ≫= g = r ≫= (fun x => f x ≫= g).
Proof. by destruct r. Qed.

Lemma sum_from_ok (acc : Q) (items : list json) :
  forallb amount_ok items = true →
  sum_from (fun item => get item "amount" (JNum 0)) acc items
  = Returns (total_from acc items).
Proof.
  revert acc. induction items as [|item items IH]; intros acc Hok; [reflexivity|].
  simpl in Hok. apply andb_true_iff in Hok as [Hitem Hok].
  destruct item as [| | | | |m]; try discriminate. simpl in Hitem |- *.
  destruct (m !! "amount") as [[|[]| | | |]|]; try discriminate; simpl;
    by rewrite IH.
Qed.

Lemma sum_from_not_ok (acc : Q) (items : list json) :
  forallb amount_ok items = false →
  ∃ e, sum_from (fun item => get item "amount" (JNum 0)) acc items = Raises e.
Proof.
  revert acc. induction items as [|item items IH]; intros acc Hok; [discriminate|].
  simpl in Hok. apply andb_false_iff in Hok.
  destruct item as [| | | | |m]; simpl; eauto.
  simpl in Hok.
  destruct (m !! "amount") as [[|[]| | | |]|]; simpl; eauto;
    (destruct Hok as [Hok|Hok]; [discriminate|by apply IH]).
Qed.

Lemma categories_ok (items : list json) :
  forallb category_ok items = true →
  (mapM (fun item => get item "category" (JStr "")) items ≫= join "|")
  = Returns (String.concat "|" (List.map category_of items)).
Proof.
  intros Hok.
  assert (∃ cats, mapM (fun item => get item "category" (JStr "")) items = Returns cats
                  ∧ mapM as_str cats = Returns (List.map category_of items))
    as (cats & -> & Hstrs).
  { induction items as [|item items IH]; [by exists []|].
    simpl in Hok. apply andb_true_iff in Hok as [Hitem Hok].
    destruct (IH Hok) as (cats & Hcats & Hstrs).
    destruct item as [| | | | |m]; try discriminate. simpl in Hitem |- *.
    rewrite Hcats. simpl.
    destruct (m !! "category") as [[| | |s| |]|]; try discriminate; simpl;
      eexists; (split; [reflexivity|]); simpl; by rewrite Hstrs. }
  simpl. unfold join. by rewrite Hstrs.
Qed.

Lemma categories_not_ok (items : list json) :
  forallb category_ok items = false →
  ∃ e, (mapM (fun item => get item "category" (JStr "")) items ≫= join "|") = Raises e.
Proof.
  intros Hok.
  destruct (mapM (fun item => get item "category" (JStr "")) items) as [cats|e] eqn:Hcats;
    [|simpl; eauto].
  simpl. unfold join.
  destruct (mapM as_str cats) as [strs|e] eqn:Hstrs; [|simpl; eauto].
  exfalso. revert cats strs Hcats Hstrs.
  induction items as [|item items IH]; intros cats strs Hcats Hstrs; [discriminate|].
  simpl in Hok, Hcats.
  destruct item as [| | | | |m]; try discriminate. simpl in Hok, Hcats.
  destruct (mapM (fun item => get item "category" (JStr "")) items) as [cats'|] eqn:Hc;
    [|discriminate].
  simpl in Hcats. injection Hcats as <-. simpl in Hstrs.
  destruct (m !! "category") as [[| | |s| |]|]; simpl in Hstrs; try discriminate;
    (destruct (mapM as_str cats') as [strs'|] eqn:Hs; [|discriminate]);
    simpl in Hok; eapply IH; eauto.
Qed.

Lemma forallb_entry_ok (items : list json) :
  forallb entry_ok items = forallb amount_ok items && forallb category_ok items.
Proof.
  induction items as [|item items IH]; [reflexivity|].
  simpl. rewrite IH. unfold entry_ok.
  destruct (amount_ok item), (category_ok item), (forallb amount_ok items); reflexivity.
Qed.

Lemma group_get (fields : gmap string json) (k : string) :
  group_ok fields k = true →
  default (JObj ∅) (fields !! k) = JObj (group fields k).
Proof.
  unfold group_ok, group. destruct (fields !! k) as [[]|]; simpl; done.
Qed.

Lemma group_not_ok (fields : gmap string json) (k : string) :
  group_ok fields k = false →
  ∃ v, fields !! k = Some v ∧ is_dict v = false.
Proof.
  unfold group_ok. destruct (fields !! k) as [v|]; [eauto|done].
Qed.

Lemma spending_get (fields : gmap string json) :
  spending_ok fields = true →
  iter (default (JArr []) (fields !! "spending_behavior")) = Returns (spending_entries fields)
  ∧ len (default (JArr []) (fields !! "spending_behavior"))
    = Returns (Z.of_nat (length (spending_entries fields)))
  ∧ forallb entry_ok (spending_entries fields) = true.
Proof.
  unfold spending_ok, spending_entries.
  destruct (fields !! "spending_behavior") as [[| | |s|items|m]|]; simpl; try done.
  - intros ->%String.eqb_eq. done.
  - intros Hm%Nat.eqb_eq. apply map_size_empty_iff in Hm as ->.
    rewrite map_to_list_empty, map_size_empty. done.
Qed.

Lemma iter_len (o : json) (items : list json) :
  iter o = Returns items → len o = Returns (Z.of_nat (length items)).
Proof.
  destruct o; simpl; try done; intros [= <-]; f_equal; f_equal.
  - rewrite length_map. induction s as [|c s IH]; simpl; congruence.
  - by rewrite length_map, length_map_to_list.
Qed.

Lemma spending_not_ok (fields : gmap string json) (items : list json) :
  spending_ok fields = false →
  iter (default (JArr []) (fields !! "spending_behavior")) = Returns items →
  forallb entry_ok items = false.
Proof.
  unfold spending_ok.
  destruct (fields !! "spending_behavior") as [[| | |s|items'|m]|]; simpl; try done.
  - intros Hs [= <-]. destruct s; [done|reflexivity].
  - by intros Hok [= <-].
  - intros Hm%Nat.eqb_neq [= <-].
    destruct (map_to_list m) as [|kv l] eqn:Hl; [|reflexivity].
    apply map_to_list_empty_iff in Hl as ->. by rewrite map_size_empty in Hm.
Qed.

(** On a usable record the flattener returns, and what it returns is
    [flat_of]. *)
Lemma flatten_record_ok (fields : gmap string json) :
  record_ok (JObj fields) = true →
  flatten_record (JObj fields) = Returns (flat_of fields).
Proof.
  unfold record_ok. rewrite !andb_true_iff. intros [[[Hai Hfin] Hsp] Hdec].
  destruct (spending_get fields Hsp) as (Hiter & Hlen & Hitems).
  rewrite forallb_entry_ok in Hitems. apply andb_true_iff in Hitems as [Ham Hcat].
  unfold flatten_record, store. cbn [get].
  rewrite !group_get by assumption.
  binds. rewrite Hiter. binds.
  rewrite (sum_from_ok _ _ Ham). binds.
  rewrite Hlen. binds.
  rewrite <- (bind_assoc _ (join "|")), (categories_ok _ Hcat).
  reflexivity.
Qed.

Lemma flatten_record_not_dict (record : json) :
  is_dict record = false → flatten_record record = Raises AttributeError.
Proof. destruct record; try discriminate; reflexivity. Qed.

Lemma flatten_record_applicant_info (fields : gmap string json) :
  group_ok fields "applicant_info" = false →
  flatten_record (JObj fields) = Raises AttributeError.
Proof.
  intros (v & Hv & Hdict)%group_not_ok. unfold flatten_record, store. binds.
  rewrite Hv. by destruct v.
Qed.

Lemma flatten_record_financials (fields : gmap string json) :
  group_ok fields "applicant_info" = true →
  group_ok fields "financials" = false →
  flatten_record (JObj fields) = Raises AttributeError.
Proof.
  intros Hai (v & Hv & Hdict)%group_not_ok. unfold flatten_record, store. binds.
  rewrite (group_get _ _ Hai), Hv. binds. by destruct v.
Qed.

Lemma flatten_record_spending_not_ok (fields : gmap string json) :
  group_ok fields "applicant_info" = true →
  group_ok fields "financials" = true →
  spending_ok fields = false →
  ∃ e, flatten_record (JObj fields) = Raises e.
Proof.
  intros Hai Hfin Hsp. unfold flatten_record, store. binds.
  rewrite (group_get _ _ Hai), (group_get _ _ Hfin). binds.
  destruct (iter (default (JArr []) (fields !! "spending_behavior")))
    as [items|e] eqn:Hiter; [|by exists e].
  pose proof (spending_not_ok _ _ Hsp Hiter) as Hitems.
  rewrite forallb_entry_ok in Hitems.
  binds.
  destruct (forallb amount_ok items) eqn:Ham.
  - rewrite (sum_from_ok _ _ Ham). binds.
    rewrite (iter_len _ _ Hiter). binds.
    destruct (categories_not_ok items Hitems) as [e He].
    rewrite <- (bind_assoc _ (join "|")), He. by exists e.
  - destruct (sum_from_not_ok 0 items Ham) as [e He].
    rewrite He. by exists e.
Qed.

Lemma flatten_record_decision (fields : gmap string json) :
  group_ok fields "applicant_info" = true →
  group_ok fields "financials" = true →
  spending_ok fields = true →
  group_ok fields "decision" = false →
  flatten_record (JObj fields) = Raises AttributeError.
Proof.
  intros Hai Hfin Hsp (v & Hv & Hdict)%group_not_ok.
  destruct (spending_get fields Hsp) as (Hiter & Hlen & Hitems).
  rewrite forallb_entry_ok in Hitems. apply andb_true_iff in Hitems as [Ham Hcat].
  unfold flatten_record, store. binds.
  rewrite (group_get _ _ Hai), (group_get _ _ Hfin).
  binds. rewrite Hiter. binds.
  rewrite (sum_from_ok _ _ Ham). binds.
  rewrite Hlen. binds.
  rewrite <- (bind_assoc _ (join "|")), (categories_ok _ Hcat).
  binds. rewrite Hv. binds. by destruct v.
Qed.

(** On a record that is not usable the flattener raises. *)
Lemma flatten_record_not_ok (record : json) :
  record_ok record = false → ∃ e, flatten_record record = Raises e.
Proof.
  destruct record as [| | | | |fields];
    try (intros _; eexists; by apply flatten_record_not_dict).
  unfold record_ok.
  destruct (group_ok fields "applicant_info") eqn:Hai;
    [|intros _; eexists; by apply flatten_record_applicant_info].
  destruct (group_ok fields "financials") eqn:Hfin;
    [|intros _; eexists; by apply flatten_record_financials].
  destruct (spending_ok fields) eqn:Hsp;
    [|intros _; by apply flatten_record_spending_not_ok].
  destruct (group_ok fields "decision") eqn:Hdec; [done|].
  intros _. eexists. by apply flatten_record_decision.
Qed.

Lemma flatten_record_Returns (record : json) :
  (∃ flat, flatten_record record = Returns flat) ↔ record_ok record = true.
Proof.
  split.
  - intros [flat Hflat]. destruct (record_ok record) eqn:Hok; [done|].
    destruct (flatten_record_not_ok record Hok) as [e He]. congruence.
  - destruct record as [| | | | |fields]; try discriminate.
    intros Hok. exists (flat_of fields). by apply flatten_record_ok.
Qed.

Lemma flatten_record_flat_of (fields flat : gmap string json) :
  flatten_record (JObj fields) = Returns flat →
  record_ok (JObj fields) = true ∧ flat = flat_of fields.
Proof.
  intros Hflat.
  assert (record_ok (JObj fields) = true) as Hok.
  { apply flatten_record_Returns. eauto. }
  split; [done|]. rewrite (flatten_record_ok _ Hok) in Hflat. congruence.
Qed.



(** X8: the flat dict has a fixed set of keys and copies the fields.
    Whenever [flatten_record] returns, the dict has exactly the 22 keys of
    [columns], whichever fields the record had; [app_id] is the [_id] of
    the record, the three top-level fields, the seven applicant fields, the
    four financial fields and the four decision fields are the values of
    the record under the same names, and a field that the record lacks
    (or whose group it lacks) is [None]. *)
Theorem flatten_record_columns (fields flat : gmap string json) :
  flatten_record (JObj fields) = Returns flat →
  dom flat = list_to_set columns
  ∧ flat !! "app_id" = Some (field fields "_id")
  ∧ (∀ c, In c top_level_fields → flat !! c = Some (field fields c))
  ∧ (∀ c, In c applicant_fields →
       flat !! c = Some (field (group fields "applicant_info") c))
  ∧ (∀ c, In c financial_fields →
       flat !! c = Some (field (group fields "financials") c))
  ∧ (∀ c, In c decision_fields →
       flat !! c = Some (field (group fields "decision") c)).
Proof.
  intros [_ ->]%flatten_record_flat_of.
  split.
  { unfold flat_of, columns. rewrite !dom_insert_L, dom_empty_L.
    cbn [list_to_set foldr]. set_solver. }
  split; [by unfold flat_of; simplify_map_eq|].
  repeat split; intros c Hc; simpl in Hc;
    repeat (destruct Hc as [<-|Hc]; [by unfold flat_of; simplify_map_eq|]);
    destruct Hc.
Qed.

(** The flat dict of the sample application *)
Lemma flatten_record_columns_witness :
  dom (flat_of sample_fields) = list_to_set columns
  ∧ flat_of sample_fields !! "email" = Some (JStr "a@b.co").
Proof.
  destruct (flatten_record_columns sample_fields (flat_of sample_fields))
    as (Hdom & _ & _ & Hai & _).
  - vm_cast_no_check (eq_refl (flatten_record (JObj sample_fields))).
  - split; [exact Hdom|]. apply (Hai "email"). simpl. tauto.
Defined.

Lemma total_from_sum (acc : Q) (items : list json) :
  (total_from acc items == acc + sum_Q (List.map amount_of items))%Q.
Proof.
  revert acc. induction items as [|item items IH]; intros acc.
  - unfold total_from, sum_Q. simpl. lra.
  - change (total_from acc (item :: items)) with (total_from (acc + amount_of item) items).
    rewrite IH. unfold sum_Q. simpl. lra.
Qed.

(** X9: the spending columns.  Whenever [flatten_record] returns, every
    spending entry of the record is usable, [spending_categories] is the
    number of entries, [spending_total] is the sum of their amounts (an
    entry without amount counts 0, a bool counts 0 or 1), and
    [spending_category_list] is their categories joined with [|] (an entry
    without category gives the empty text); without entries the three are
    0, 0 and the empty text. *)
Theorem flatten_record_spending (fields flat : gmap string json) :
  flatten_record (JObj fields) = Returns flat →
  Forall (fun item => entry_ok item = true) (spending_entries fields)
  ∧ flat !! "spending_categories"
    = Some (JNum (inject_Z (Z.of_nat (length (spending_entries fields)))))
  ∧ (∃ total, flat !! "spending_total" = Some (JNum total)
              ∧ (total == sum_Q (List.map amount_of (spending_entries fields)))%Q)
  ∧ flat !! "spending_category_list"
    = Some (JStr (String.concat "|" (List.map category_of (spending_entries fields)))).
Proof.
  intros [Hok ->]%flatten_record_flat_of.
  split.
  { unfold record_ok in Hok. rewrite !andb_true_iff in Hok.
    destruct Hok as [[[_ _] Hsp] _].
    apply spending_get in Hsp as (_ & _ & Hitems).
    apply Forall_forall. intros item Hin%list_elem_of_In.
    by apply (proj1 (forallb_forall _ _) Hitems). }
  split; [by unfold flat_of; simplify_map_eq|].
  split; [|by unfold flat_of; simplify_map_eq].
  exists (total_from 0 (spending_entries fields)).
  split; [by unfold flat_of; simplify_map_eq|].
  rewrite total_from_sum. lra.
Qed.

(** The spending columns of the sample application *)
Lemma flatten_record_spending_witness :
  flat_of sample_fields !! "spending_categories" = Some (JNum 2)
  ∧ flat_of sample_fields !! "spending_category_list" = Some (JStr "food|rent").
Proof.
  destruct (flatten_record_spending sample_fields (flat_of sample_fields))
    as (_ & Hn & _ & Hlist).
  - vm_cast_no_check (eq_refl (flatten_record (JObj sample_fields))).
  - split; [exact Hn|exact Hlist].
Defined.

Lemma split_app (c : ascii) (p r : string) :
  Py.contains c p = false →
  Py.split c (p +:+ String c r) = p :: Py.split c r.
Proof.
  induction p as [|c' p IH].
  - intros _. rewrite append_nil. simpl. by rewrite Ascii.eqb_refl.
  - simpl. intros [Hc Hp]%orb_false_iff.
    by rewrite Hc, (IH Hp).
Qed.

(** Splitting a joined list gives the parts back, when there is a part and
    no part holds the separator. *)
Lemma split_concat (c : ascii) (parts : list string) :
  parts ≠ [] →
  Forall (fun p => Py.contains c p = false) parts →
  Py.split c (String.concat (String c EmptyString) parts) = parts.
Proof.
  intros Hne Hparts. induction Hparts as [|p parts Hp Hparts IH]; [done|].
  destruct parts as [|p' parts].
  - simpl. by apply split_no_sep.
  - change (String.concat (String c "") (p :: p' :: parts))
      with (p +:+ String c "" +:+ String.concat (String c "") (p' :: parts)).
    rewrite append_cons, append_nil, (split_app _ _ _ Hp), IH; done.
Qed.

(** X10: reading [spending_category_list] back.  Whenever [flatten_record]
    returns: if the record has spending entries and no category holds a
    [|], splitting the column on [|] gives the categories of the entries,
    one part for each entry and in their order; if the record has no
    entry, the column is the empty text, which splits into one empty part,
    not into none. *)
Theorem spending_category_list_split (fields flat : gmap string json) :
  flatten_record (JObj fields) = Returns flat →
  ∃ s, flat !! "spending_category_list" = Some (JStr s)
    ∧ (spending_entries fields = [] → s = "" ∧ Py.split "|" s = [""])
    ∧ (spending_entries fields ≠ [] →
       Forall (fun item => Py.contains "|" (category_of item) = false)
         (spending_entries fields) →
       Py.split "|" s = List.map category_of (spending_entries fields)).
Proof.
  intros [_ ->]%flatten_record_flat_of.
  eexists. split; [by unfold flat_of; simplify_map_eq|]. split.
  - intros ->. done.
  - intros Hne Hcats. apply split_concat.
    + by destruct (spending_entries fields).
    + apply Forall_forall. intros p (item & <- & Hin)%list_elem_of_In%in_map_iff.
      apply (proj1 (Forall_forall _ _) Hcats). by apply list_elem_of_In.
Qed.

(** The categories of the sample application *)
Lemma spending_category_list_split_witness :
  ∃ s, flat_of sample_fields !! "spending_category_list" = Some (JStr s)
    ∧ Py.split "|" s = ["food"; "rent"].
Proof.
  destruct (spending_category_list_split sample_fields (flat_of sample_fields))
    as (s & Hs & _ & Hsplit).
  - vm_cast_no_check (eq_refl (flatten_record (JObj sample_fields))).
  - exists s. split; [exact Hs|]. apply Hsplit.
    + vm_compute. discriminate.
    + vm_compute. repeat constructor.
Defined.




(** X12: [load_and_flatten] on a document that is no list.  On [null], a
    bool or a number it raises [TypeError] (the report line takes the
    length of the document); on a [str] or a dict that is not empty, for
    instance a single record that is not wrapped in a list, it raises
    [AttributeError] (the loop goes through characters or keys, which have
    no [get]); on an empty [str] or dict it returns no rows. *)
Theorem load_and_flatten_not_a_list :
  load_and_flatten JNull = Raises TypeError
  ∧ (∀ b, load_and_flatten (JBool b) = Raises TypeError)
  ∧ (∀ q, load_and_flatten (JNum q) = Raises TypeError)
  ∧ (∀ s, load_and_flatten (JStr s)
          = if String.eqb s "" then Returns [] else Raises AttributeError)
  ∧ (∀ m, load_and_flatten (JObj m)
          = if (size m =? 0)%nat then Returns [] else Raises AttributeError).
Proof.
  repeat split; try reflexivity.
  - intros s. by destruct s.
  - intros m. unfold load_and_flatten, load_raw_json. simpl.
    destruct (size m =? 0)%nat eqn:Hm.
    + apply Nat.eqb_eq, map_size_empty_iff in Hm as ->. by rewrite map_to_list_empty.
    + destruct (map_to_list m) as [|kv l] eqn:Hl; [|reflexivity].
      apply map_to_list_empty_iff in Hl as ->. by rewrite map_size_empty in Hm.
Qed.

End LoaderProperties.
